(** * The wallet tracer of [trace_kaspa_fullhistory.py]

    A shallow embedding of the tracer: the two page-fetch loops
    ([fetch_transactions], [fetch_transactions_all_participants]), the
    cutoff policy ([is_before_cutoff]), the timestamp formatter
    ([format_timestamp]) and the entry point ([trace_wallet]).

    Conventions of the embedding.
    - A JSON record of the upstream API is a Rocq record of optional
      fields: [None] is an absent key, [Some v] a key holding a value of
      the type the API documents (addresses and identifiers are strings,
      amounts and block times are integers).  A key that holds a value
      of another kind (JSON [null], say, on which [int(...)] and
      [ms / 1000] raise [TypeError]) is outside the model.
    - Python's [print] is a writer effect: every function that prints
      returns the list of [event]s it emitted.  An uncaught exception is
      the [Raise] result.
    - The amount of an edge ([amount_kas]) and the [weight] behind it
      are kept as the exact rationals ([Q]) that the expressions of the
      source denote; equalities on them are [Qeq].  Python evaluates
      these expressions in binary64: that evaluation is modelled
      separately ([truediv64], [amounts64]), and what is proved of the
      exact values is not claimed of the rounded ones.  Amounts are
      taken to be within the range of binary64: on an amount of 2^1024
      sompi or more the source raises [OverflowError] where the exact
      model goes on.
    - The remote API is a function from the request number, the
      address and the [before] cursor to a [response]; the clock read at
      the start of a fetch is the parameter [now]. *)

From Stdlib Require PrimFloat SpecFloat FloatOps.
From Stdlib Require Import ZArith QArith List String Ascii Bool Lia Arith.
From Stdlib Require Import Field Qfield Lqa.
Import ListNotations.

Local Open Scope string_scope.
Local Open Scope Z_scope.

(** ** Exceptions, results and the printing monad *)

Inductive exn : Type :=
| ValueError
| TypeError
| KeyError
| IndexError
| AttributeError
| OverflowError
| OSError
| ZeroDivisionError.

Inductive result (A : Type) : Type :=
| Ok (a : A)
| Raise (e : exn).

Arguments Ok {A} a.
Arguments Raise {A} e.

Definition rbind {A B : Type} (r : result A) (f : A -> result B) : result B :=
  match r with
  | Ok a => f a
  | Raise e => Raise e
  end.

(** What the tracer prints, one constructor per [print] call site. *)
Inductive event : Type :=
| Fetching (before : Z) (address : string)
| ErrorFetching
| NoMoreTransactions
| SkippingNonDict
| TimestampParsingFailed (timestamp : string)
| ReachedCutoff (timestamp : string)
| FetchingFullSet (address : string)
| TotalCollected (n : nat)
| FilteredRecords (n : nat) (address : string)
| NoTransactions
| SavedFull (path : string)
| SavedFiltered (path : string).

Definition M (A : Type) : Type := (list event * result A)%type.

Definition ret {A : Type} (a : A) : M A := ([], Ok a).

Definition bind {A B : Type} (m : M A) (f : A -> M B) : M B :=
  match m with
  | (out, Ok a) => let (out', r) := f a in ((out ++ out')%list, r)
  | (out, Raise e) => (out, Raise e)
  end.

Definition print (ev : event) : M unit := ([ev], Ok tt).

Definition lift {A : Type} (r : result A) : M A := ([], r).

(** [try: body except Exception: handler]. *)
Definition try_except {A : Type} (body : M A) (handler : M A) : M A :=
  match body with
  | (out, Ok a) => (out, Ok a)
  | (out, Raise _) => let (out', r) := handler in ((out ++ out')%list, r)
  end.

Notation "x <- m ;; k" := (bind m (fun x => k))
  (at level 61, m at next level, right associativity).
Notation "m ;;; k" := (bind m (fun _ => k))
  (at level 61, right associativity).

(** [d.get(key, default)] on an optional field. *)
Definition get {A : Type} (field : option A) (default : A) : A :=
  match field with
  | Some v => v
  | None => default
  end.

(** ** Strings *)

Definition digit (n : Z) : ascii := ascii_of_nat (48 + Z.to_nat (n mod 10)).

Definition pad2 (n : Z) : string :=
  String (digit (n / 10)) (String (digit n) "").

Definition pad4 (n : Z) : string :=
  String (digit (n / 1000)) (String (digit (n / 100)) (pad2 n)).

Definition pad6 (n : Z) : string :=
  String (digit (n / 100000)) (String (digit (n / 10000)) (pad4 n)).

(** [s.replace(old, new)] for a one-character [old]. *)
Fixpoint replace (old : ascii) (new : string) (s : string) : string :=
  match s with
  | EmptyString => EmptyString
  | String c s' =>
      if Ascii.eqb c old then new ++ replace old new s'
      else String c (replace old new s')
  end.

(** [s[n:]]. *)
Fixpoint slice_from (n : nat) (s : string) : string :=
  match n, s with
  | O, _ => s
  | S _, EmptyString => EmptyString
  | S n', String _ s' => slice_from n' s'
  end.

(** [s[a:b]] for [a <= b]: Python truncates at the end of the string. *)
Definition slice (a b : nat) (s : string) : string := substring a (b - a) s.

(** [s.find(c)], [None] for Python's [-1]. *)
Fixpoint find (c : ascii) (s : string) : option nat :=
  match s with
  | EmptyString => None
  | String c' s' =>
      if Ascii.eqb c' c then Some O
      else match find c s' with
           | Some i => Some (S i)
           | None => None
           end
  end.

Definition digit_val (c : ascii) : option Z :=
  let n := nat_of_ascii c in
  if ((48 <=? n) && (n <=? 57))%nat then Some (Z.of_nat n - 48) else None.

Fixpoint digits_val (acc : Z) (s : string) : option Z :=
  match s with
  | EmptyString => Some acc
  | String c s' =>
      match digit_val c with
      | Some d => digits_val (10 * acc + d) s'
      | None => None
      end
  end.

(** [int(s)] on a field of decimal digits; anything else is a
    [ValueError]. *)
Definition int_of_digits (s : string) : result Z :=
  match s with
  | EmptyString => Raise ValueError
  | _ => match digits_val 0 s with
         | Some n => Ok n
         | None => Raise ValueError
         end
  end.

(** ** [datetime] *)

(** [tzinfo] is [None] for a naive datetime and [Some off] for an aware
    one, [off] being the UTC offset in microseconds. *)
Record datetime : Type := mkDatetime {
  year : Z; month : Z; day : Z;
  hour : Z; minute : Z; second : Z; microsecond : Z;
  tzinfo : option Z
}.

Definition is_leap (y : Z) : bool :=
  (y mod 4 =? 0) && (negb (y mod 100 =? 0) || (y mod 400 =? 0)).

Definition days_in_month (y m : Z) : Z :=
  if m =? 2 then (if is_leap y then 29 else 28)
  else if (m =? 4) || (m =? 6) || (m =? 9) || (m =? 11) then 30
  else 31.

Definition days_before_month_table (m : Z) : Z :=
  nth (Z.to_nat m) [0; 0; 31; 59; 90; 120; 151; 181; 212; 243; 273; 304; 334] 0.

Definition days_in_month_table (m : Z) : Z :=
  nth (Z.to_nat m) [0; 31; 28; 31; 30; 31; 30; 31; 31; 30; 31; 30; 31] 0.

(** The [datetime(...)] constructor: every field is range-checked. *)
Definition make_datetime (y mo d h mi s us : Z) (tz : option Z)
  : result datetime :=
  if (1 <=? y) && (y <=? 9999) && (1 <=? mo) && (mo <=? 12)
     && (1 <=? d) && (d <=? days_in_month y mo)
     && (0 <=? h) && (h <=? 23) && (0 <=? mi) && (mi <=? 59)
     && (0 <=? s) && (s <=? 59) && (0 <=? us) && (us <=? 999999)
  then Ok (mkDatetime y mo d h mi s us tz)
  else Raise ValueError.

(** Proleptic Gregorian ordinal (day 1 is 0001-01-01) to year, month,
    day. *)
Definition ord2ymd (ordinal : Z) : Z * Z * Z :=
  let n := ordinal - 1 in
  let n400 := n / 146097 in
  let n := n mod 146097 in
  let y := n400 * 400 + 1 in
  let n100 := n / 36524 in
  let n := n mod 36524 in
  let n4 := n / 1461 in
  let n := n mod 1461 in
  let n1 := n / 365 in
  let n := n mod 365 in
  let y := y + n100 * 100 + n4 * 4 + n1 in
  if (n1 =? 4) || (n100 =? 4) then (y - 1, 12, 31)
  else
    let leapyear := (n1 =? 3) && (negb (n4 =? 24) || (n100 =? 3)) in
    let mo := Z.shiftr (n + 50) 5 in
    let preceding :=
      days_before_month_table mo + (if (2 <? mo) && leapyear then 1 else 0) in
    if n <? preceding then
      let mo := mo - 1 in
      let preceding :=
        preceding
        - (days_in_month_table mo + (if (mo =? 2) && leapyear then 1 else 0)) in
      (y, mo, n - preceding + 1)
    else (y, mo, n - preceding + 1).

(** The limits of the platform under [fromtimestamp] (CPython on Linux
    with a 64-bit [time_t]), as block times in milliseconds.  Past
    [time_t_max_block_time] in either direction the quotient
    [ms / 1000], rounded to binary64, does not fit [time_t]; outside
    [gmtime_min_block_time .. gmtime_max_block_time] the C library's
    [gmtime] cannot hold the year in its 32-bit [tm_year]. *)
Definition time_t_max_block_time : Z := 9223372036854776832000.
Definition gmtime_min_block_time : Z := -67768040609740804000.
Definition gmtime_max_block_time : Z := 67768036191676795999.

(** [datetime.fromtimestamp(ms / 1000, tz=timezone.utc)].  A quotient
    that does not fit [time_t] is an [OverflowError] ("timestamp out of
    range for platform time_t", and "integer division result too large
    for a float" further out); a moment [gmtime] cannot break down is
    an [OSError]; a year outside 1..9999 is the constructor's
    [ValueError].  The quotient [ms / 1000] is a binary64 number that
    [fromtimestamp] rounds to the microsecond: the model keeps the
    exact value [ms mod 1000 * 1000], which is the microsecond Python
    prints for block times between 1970 and about 2242 and may differ
    from it in the last digits elsewhere. *)
Definition fromtimestamp_ms_utc (ms : Z) : result datetime :=
  if (ms <? - time_t_max_block_time) || (time_t_max_block_time <? ms)
  then Raise OverflowError
  else if (ms <? gmtime_min_block_time) || (gmtime_max_block_time <? ms)
  then Raise OSError
  else
    let t := ms / 1000 in
    let us := (ms mod 1000) * 1000 in
    let days := t / 86400 in
    let secs := t mod 86400 in
    let '(y, mo, d) := ord2ymd (days + 719163) in
    make_datetime y mo d (secs / 3600) ((secs mod 3600) / 60) (secs mod 60) us
      (Some 0).

(** The [+HH:MM] suffix of [isoformat] for an aware datetime; offsets
    are whole minutes here. *)
Definition format_offset (off : Z) : string :=
  let sign := if off <? 0 then "-" else "+" in
  let m := Z.abs off / 60000000 in
  sign ++ pad2 (m / 60) ++ ":" ++ pad2 (m mod 60).

Definition isoformat (dt : datetime) : string :=
  pad4 (year dt) ++ "-" ++ pad2 (month dt) ++ "-" ++ pad2 (day dt) ++ "T"
  ++ pad2 (hour dt) ++ ":" ++ pad2 (minute dt) ++ ":" ++ pad2 (second dt)
  ++ (if microsecond dt =? 0 then "" else "." ++ pad6 (microsecond dt))
  ++ match tzinfo dt with
     | Some off => format_offset off
     | None => ""
     end.

(** [format_timestamp(ms)]. *)
Definition format_timestamp (ms : Z) : result string :=
  rbind (fromtimestamp_ms_utc ms) (fun dt => Ok (isoformat dt)).

(** *** [datetime.fromisoformat]

    The grammar is the one [isoformat] emits,
    [YYYY-MM-DD[*HH[:MM[:SS[.fff[fff]]]][+HH:MM[:SS[.ffffff]]]]]: ten
    characters of date and, when the string is longer, one separator
    character and a time that may not be empty.  Later versions of the
    library also accept other ISO 8601 forms (dates without dashes,
    fractions of any length); the model raises on those.  Every failure
    is an exception that the only caller, [is_before_cutoff], catches
    without looking at its class. *)

Definition two_digits (s : string) : result (Z * string) :=
  if (String.length s <? 2)%nat then Raise ValueError
  else rbind (int_of_digits (slice 0 2 s)) (fun v => Ok (v, slice_from 2 s)).

Definition parse_fraction (rest : string) : result Z :=
  match rest with
  | EmptyString => Ok 0
  | String c f =>
      if Ascii.eqb c "." then
        let n := String.length f in
        if (n =? 3)%nat then rbind (int_of_digits f) (fun v => Ok (v * 1000))
        else if (n =? 6)%nat then int_of_digits f
        else Raise ValueError
      else Raise ValueError
  end.

Definition parse_hh_mm_ss_ff (tstr : string) : result (Z * Z * Z * Z) :=
  rbind (two_digits tstr) (fun '(hh, r) =>
  match r with
  | EmptyString => Ok (hh, 0, 0, 0)
  | String c r =>
      if negb (Ascii.eqb c ":") then Raise ValueError else
      rbind (two_digits r) (fun '(mm, r) =>
      match r with
      | EmptyString => Ok (hh, mm, 0, 0)
      | String c r =>
          if negb (Ascii.eqb c ":") then Raise ValueError else
          rbind (two_digits r) (fun '(ss, r) =>
          rbind (parse_fraction r) (fun us => Ok (hh, mm, ss, us)))
      end)
  end).

(** [tstr.find('-') + 1 or tstr.find('+') + 1], with [None] for 0. *)
Definition find_tz (tstr : string) : option nat :=
  match find "-" tstr with
  | Some i => Some (S i)
  | None => match find "+" tstr with
            | Some i => Some (S i)
            | None => None
            end
  end.

Definition day_microseconds : Z := 86400 * 1000000.

Definition parse_isoformat_time (tstr : string)
  : result (Z * Z * Z * Z * option Z) :=
  if (String.length tstr <? 2)%nat then Raise ValueError else
  match find_tz tstr with
  | None =>
      rbind (parse_hh_mm_ss_ff tstr) (fun '(hh, mm, ss, us) =>
      Ok (hh, mm, ss, us, None))
  | Some tz_pos =>
      rbind (parse_hh_mm_ss_ff (slice 0 (tz_pos - 1) tstr))
        (fun '(hh, mm, ss, us) =>
      let tzstr := slice_from tz_pos tstr in
      let n := String.length tzstr in
      if negb ((n =? 5)%nat || (n =? 8)%nat || (n =? 15)%nat)
      then Raise ValueError else
      rbind (parse_hh_mm_ss_ff tzstr) (fun '(th, tm, ts, tu) =>
      let tzsign :=
        if (slice (tz_pos - 1) tz_pos tstr =? "-")%string then -1 else 1 in
      let off := tzsign * ((th * 3600 + tm * 60 + ts) * 1000000 + tu) in
      if (- day_microseconds <? off) && (off <? day_microseconds)
      then Ok (hh, mm, ss, us, Some off)
      else Raise ValueError))
  end.

Definition parse_isoformat_date (dstr : string) : result (Z * Z * Z) :=
  rbind (int_of_digits (slice 0 4 dstr)) (fun y =>
  if negb (slice 4 5 dstr =? "-")%string then Raise ValueError else
  rbind (int_of_digits (slice 5 7 dstr)) (fun mo =>
  if negb (slice 7 8 dstr =? "-")%string then Raise ValueError else
  rbind (int_of_digits (slice 8 10 dstr)) (fun d =>
  Ok (y, mo, d)))).

Definition fromisoformat (date_string : string) : result datetime :=
  if (String.length date_string <? 10)%nat then Raise ValueError else
  let dstr := slice 0 10 date_string in
  rbind (parse_isoformat_date dstr) (fun '(y, mo, d) =>
  if (String.length date_string =? 10)%nat
  then make_datetime y mo d 0 0 0 0 None
  else
    let tstr := slice_from 11 date_string in
    rbind (parse_isoformat_time tstr) (fun '(hh, mm, ss, us, tz) =>
    make_datetime y mo d hh mm ss us tz)).

(** *** Ordering of datetimes *)

Definition days_before_year (y : Z) : Z :=
  let y := y - 1 in y * 365 + y / 4 - y / 100 + y / 400.

Definition ymd2ord (y mo d : Z) : Z :=
  days_before_year y
  + (days_before_month_table mo + (if (2 <? mo) && is_leap y then 1 else 0))
  + d.

(** Microseconds since 0001-01-01T00:00:00 of the wall-clock fields. *)
Definition wall_microseconds (dt : datetime) : Z :=
  ((ymd2ord (year dt) (month dt) (day dt) * 86400
    + hour dt * 3600 + minute dt * 60 + second dt) * 1000000)
  + microsecond dt.

Fixpoint lex_lt (a b : list Z) : bool :=
  match a, b with
  | x :: a', y :: b' => (x <? y) || ((x =? y) && lex_lt a' b')
  | _, _ => false
  end.

Definition fields (dt : datetime) : list Z :=
  [year dt; month dt; day dt; hour dt; minute dt; second dt; microsecond dt].

(** [a < b] on datetimes: two naive values compare field by field, two
    aware values by their UTC instants, and a naive value against an
    aware one is a [TypeError] ("can't compare offset-naive and
    offset-aware datetimes"). *)
Definition datetime_lt (a b : datetime) : result bool :=
  match tzinfo a, tzinfo b with
  | None, None => Ok (lex_lt (fields a) (fields b))
  | Some oa, Some ob =>
      Ok (wall_microseconds a - oa <? wall_microseconds b - ob)
  | _, _ => Raise TypeError
  end.

(** ** The cutoff policy *)

(** [CUTOFF_DATE = datetime(2022, 1, 1)]: no [tzinfo]. *)
Definition CUTOFF_DATE : datetime := mkDatetime 2022 1 1 0 0 0 0 None.

Definition is_before_cutoff (timestamp : string) : M bool :=
  try_except
    (dt <- lift (fromisoformat (replace "Z" "+00:00" timestamp)) ;;
     lift (datetime_lt dt CUTOFF_DATE))
    (print (TimestampParsingFailed timestamp) ;;; ret false).

(** ** The data model *)

Record Input : Type := mkInput {
  previous_outpoint_address : option string;
  previous_outpoint_amount : option Z
}.

Record Output : Type := mkOutput {
  script_public_key_address : option string;
  amount : option Z
}.

Record RawTransaction : Type := mkTx {
  transaction_id : option string;
  txId : option string;
  block_time : option Z;
  inputs : option (list Input);
  outputs : option (list Output)
}.

(** An element of a page: a transaction object, or anything that is not
    a [dict]. *)
Inductive entry : Type :=
| NonDict
| TxDict (tx : RawTransaction).

(** What one request yields: an exception inside the [try] block
    (transport error, non-2xx status, undecodable body), a JSON value
    that is not a list, or a list of entries. *)
Inductive response : Type :=
| RequestFailed
| NotAList
| PageOf (data : list entry).

Record FlowEdge : Type := mkEdge {
  tx_id : string;
  timestamp : string;
  sender : string;
  recipient : string;
  amount_kas : Q
}.

(** [x or []]: an absent key and an empty list both give the empty
    list. *)
Definition or_empty {A : Type} (field : option (list A)) : list A :=
  match field with
  | Some l => l
  | None => []
  end.

(** [tx.get("transaction_id", tx.get("txId", "UNKNOWN"))]. *)
Definition tx_id_of (tx : RawTransaction) : string :=
  get (transaction_id tx) (get (txId tx) "UNKNOWN").

(** [format_timestamp(tx.get("block_time", 0))]. *)
Definition timestamp_of (tx : RawTransaction) : result string :=
  format_timestamp (get (block_time tx) 0).

(** *** [input_summary]: a [dict] from sender to summed contribution.
    Python dicts iterate in insertion order and an update keeps the
    key's position, so the dict is an association list with unique
    keys. *)

Definition dict : Type := list (string * Z).

Fixpoint dict_get (d : dict) (k : string) (default : Z) : Z :=
  match d with
  | [] => default
  | (k', v) :: d' => if (k' =? k)%string then v else dict_get d' k default
  end.

Fixpoint dict_set (d : dict) (k : string) (v : Z) : dict :=
  match d with
  | [] => [(k, v)]
  | (k', v') :: d' =>
      if (k' =? k)%string then (k', v) :: d' else (k', v') :: dict_set d' k v
  end.

Definition dict_values (d : dict) : list Z := map snd d.

(** Python's [sum] over integers. *)
Definition sum (l : list Z) : Z := fold_left Z.add l 0.

Definition input_summary_of (ins : list Input) : dict :=
  fold_left
    (fun summary inp =>
       let sender := get (previous_outpoint_address inp) "UNKNOWN" in
       dict_set summary sender
         (dict_get summary sender 0 + get (previous_outpoint_amount inp) 0))
    ins [].

Definition total_input_sompi (tx : RawTransaction) : Z :=
  sum (dict_values (input_summary_of (or_empty (inputs tx)))).

(** ** Arithmetic on amounts *)

Definition e8 : Q := 100000000 # 1.

(** [a / b] on two integers: true division, [ZeroDivisionError] on a
    zero divisor.  The value is the exact quotient, which Python rounds
    to binary64 ([truediv64] below). *)
Definition truediv (a b : Z) : result Q :=
  if b =? 0 then Raise ZeroDivisionError
  else Ok (inject_Z a / inject_Z b)%Q.

Fixpoint mapM {A B : Type} (f : A -> result B) (l : list A)
  : result (list B) :=
  match l with
  | [] => Ok []
  | x :: l' =>
      rbind (f x) (fun y => rbind (mapM f l') (fun ys => Ok (y :: ys)))
  end.

(** ** The attribution engine (all-participants variant) *)

(** The inner loop: one edge per aggregated sender for one output.
    The amount of an edge is the exact value of
    [amount_sompi * weight / 1e8]; the binary64 number Python stores
    for it is given by [amounts64] below. *)
Definition attribute_output (id ts : string) (summary : dict) (total : Z)
    (out : Output) : result (list FlowEdge) :=
  let recipient := get (script_public_key_address out) "UNKNOWN" in
  let amount_sompi := get (amount out) 0 in
  mapM (fun '(sender, contribution) =>
          rbind (truediv contribution total) (fun weight =>
          Ok (mkEdge id ts sender recipient
                (inject_Z amount_sompi * weight / e8)%Q)))
       summary.

(** The body of [for tx in data] for a transaction object: the edges
    appended to [records] ([[]] when the transaction is skipped by
    [continue]). *)
Definition attribute (tx : RawTransaction) : result (list FlowEdge) :=
  let id := tx_id_of tx in
  rbind (timestamp_of tx) (fun ts =>
  let ins := or_empty (inputs tx) in
  let outs := or_empty (outputs tx) in
  let summary := input_summary_of ins in
  let total := sum (dict_values summary) in
  if total =? 0 then Ok []
  else rbind (mapM (attribute_output id ts summary total) outs)
         (fun per_output => Ok (List.concat per_output))).

(** *** The same arithmetic in binary64

    What Python computes for the numbers above.  An [int] is turned
    into a [float] by rounding to the nearest binary64 number, ties to
    even, and is an [OverflowError] when too large; [a / b] on two
    [int]s is their exact quotient rounded once, an [OverflowError]
    when too large as well. *)










Fixpoint process_page_all (data : list entry) (records : list FlowEdge)
  : M (list FlowEdge) :=
  match data with
  | [] => ret records
  | NonDict :: rest => print SkippingNonDict ;;; process_page_all rest records
  | TxDict tx :: rest =>
      edges <- lift (attribute tx) ;;
      process_page_all rest (records ++ edges)%list
  end.

(** ** The direct variant, with the cutoff *)

(** One edge per input and output; the amount is the exact value of
    [int(amount) / 1e8], which Python rounds to binary64. *)
Definition direct_edges (id ts : string) (ins : list Input)
    (outs : list Output) : list FlowEdge :=
  flat_map
    (fun inp =>
       let sender := get (previous_outpoint_address inp) "UNKNOWN" in
       map (fun out =>
              mkEdge id ts sender
                (get (script_public_key_address out) "UNKNOWN")
                (inject_Z (get (amount out) 0%Z) / e8)%Q)
           outs)
    ins.

(** The inner [for tx in data] of [fetch_transactions]; the boolean is
    [foundcutoff]. *)
Fixpoint process_page_cutoff (data : list entry) (records : list FlowEdge)
  : M (list FlowEdge * bool) :=
  match data with
  | [] => ret (records, false)
  | NonDict :: rest =>
      print SkippingNonDict ;;; process_page_cutoff rest records
  | TxDict tx :: rest =>
      let id := tx_id_of tx in
      ts <- lift (timestamp_of tx) ;;
      let ins := or_empty (inputs tx) in
      let outs := or_empty (outputs tx) in
      before_cutoff <- is_before_cutoff ts ;;
      if before_cutoff : bool then
        print (ReachedCutoff ts) ;;; ret (records, true)
      else
        process_page_cutoff rest (records ++ direct_edges id ts ins outs)%list
  end.

(** ** Pagination *)

(** [data[-1].get("block_time", before)]. *)
Definition next_before (data : list entry) (before : Z) : result Z :=
  match rev data with
  | [] => Raise IndexError
  | NonDict :: _ => Raise AttributeError
  | TxDict tx :: _ => Ok (get (block_time tx) before)
  end.

(** ** Data frames *)

Inductive cell : Type :=
| CStr (s : string)
| CNum (q : Q).

Record DataFrame : Type := mkFrame {
  columns : list string;
  rows : list FlowEdge
}.

Definition edge_columns : list string :=
  ["tx_id"; "timestamp"; "sender"; "recipient"; "amount_kas"].

(** [pd.DataFrame(records)]: the columns are the keys of the records, so
    a frame built from no record has no column. *)
Definition pd_DataFrame (records : list FlowEdge) : DataFrame :=
  match records with
  | [] => mkFrame [] []
  | _ => mkFrame edge_columns records
  end.

Definition len (df : DataFrame) : nat := List.length (rows df).

Definition edge_cell (col : string) (e : FlowEdge) : cell :=
  if (col =? "tx_id")%string then CStr (tx_id e)
  else if (col =? "timestamp")%string then CStr (timestamp e)
  else if (col =? "sender")%string then CStr (sender e)
  else if (col =? "recipient")%string then CStr (recipient e)
  else CNum (amount_kas e).

(** [df[col]]: a [KeyError] when the frame has no such column. *)
Definition getitem (df : DataFrame) (col : string) : result (list cell) :=
  if existsb (String.eqb col) (columns df)
  then Ok (map (edge_cell col) (rows df))
  else Raise KeyError.

(** [series == address], element by element. *)
Definition series_eq (s : list cell) (x : string) : list bool :=
  map (fun c => match c with
                | CStr v => (v =? x)%string
                | CNum _ => false
                end) s.

(** [a | b] on boolean series. *)
Definition series_or (a b : list bool) : list bool :=
  map (fun p => fst p || snd p) (combine a b).

(** [df[mask]]: the rows whose mask is [True], in order. *)
Definition getitem_mask (df : DataFrame) (mask : list bool) : DataFrame :=
  mkFrame (columns df)
    (map fst (filter snd (combine (rows df) mask))).

(** ** The fetch loops and the entry point *)

Definition DATA_DIR : string := "flow_data_fullhistory".

Definition default_max_pages : nat := Z.to_nat 100000.

(** [os.path.join(DATA_DIR, name)]. *)
Definition path_join (dir name : string) : string := dir ++ "/" ++ name.

Section Tracer.

(** The remote endpoint: the answer to the [i]-th request for
    [address] with cursor [before]. *)
Variable api : nat -> string -> Z -> response.

(** [int(datetime.now(tz=timezone.utc).timestamp() * 1000)]. *)
Variable now : Z.

(** [for _ in range(max_pages)] of
    [fetch_transactions_all_participants]; [i] counts the requests
    already issued. *)
Fixpoint all_participants_loop (max_pages i : nat) (address : string)
    (before : Z) (records : list FlowEdge) : M (list FlowEdge) :=
  match max_pages with
  | O => ret records
  | S n =>
      print (Fetching before address) ;;;
      match api i address before with
      | RequestFailed => print ErrorFetching ;;; ret records
      | NotAList => print NoMoreTransactions ;;; ret records
      | PageOf [] => print NoMoreTransactions ;;; ret records
      | PageOf data =>
          records' <- process_page_all data records ;;
          before' <- lift (next_before data before) ;;
          all_participants_loop n (S i) address before' records'
      end
  end.

Definition fetch_transactions_all_participants (address : string)
    (max_pages : nat) : M DataFrame :=
  records <- all_participants_loop max_pages 0 address now [] ;;
  ret (pd_DataFrame records).



(** The [try] block of [trace_wallet] and its bare [except]: the
    projection of [txs] onto [address]. *)
Definition projection (address : string) (txs : DataFrame) : M DataFrame :=
  try_except
    (senders <- lift (getitem txs "sender") ;;
     recipients <- lift (getitem txs "recipient") ;;
     let txs_filtered :=
       getitem_mask txs
         (series_or (series_eq senders address)
                    (series_eq recipients address)) in
     print (FilteredRecords (len txs_filtered) address) ;;;
     ret txs_filtered)
    (print NoTransactions ;;; ret txs).

(** [trace_wallet(address)]; the value is the list of files written by
    [to_csv], in order, each with the frame it holds. *)
Definition trace_wallet (address : string)
  : M (list (string * DataFrame)) :=
  print (FetchingFullSet address) ;;;
  txs <- fetch_transactions_all_participants address default_max_pages ;;
  print (TotalCollected (len txs)) ;;;
  txs_filtered <- projection address txs ;;
  let full_outpath :=
    path_join DATA_DIR (replace ":" "_" address ++ "_all_participants.csv") in
  let filtered_outpath :=
    path_join DATA_DIR (replace ":" "_" address ++ "_involving.csv") in
  print (SavedFull full_outpath) ;;;
  print (SavedFiltered filtered_outpath) ;;;
  ret [(full_outpath, txs); (filtered_outpath, txs_filtered)].

End Tracer.

(** ** Definitions used to state the properties *)

(** The projection as the specification words it: the tracked address
    is literally the sender or the recipient. *)
Definition involves (X : string) (e : FlowEdge) : bool :=
  (sender e =? X)%string || (recipient e =? X)%string.


Definition weight (total contribution : Z) : Q :=
  (inject_Z contribution / inject_Z total)%Q.


Definition output_amount (out : Output) : Z := get (amount out) 0.

(** The edges of one output once the total is known to be nonzero. *)
Definition edges_for_output (id ts : string) (summary : dict) (total : Z)
    (out : Output) : list FlowEdge :=
  map (fun p =>
         mkEdge id ts (fst p)
           (get (script_public_key_address out) "UNKNOWN")
           (inject_Z (output_amount out) * weight total (snd p) / e8)%Q)
      summary.

(** The cursors of the requests issued, read off the printed trace. *)
Fixpoint requests (out : list event) : list Z :=
  match out with
  | [] => []
  | Fetching before _ :: out' => before :: requests out'
  | _ :: out' => requests out'
  end.

(** Output emitted before the result of a computation. *)
Definition after {A : Type} (out : list event) (m : M A) : M A :=
  ((out ++ fst m)%list, snd m).

Definition epoch : string := "1970-01-01T00:00:00+00:00".




(** The edges of a transaction that is not skipped: one per output and
    aggregated sender, outputs outermost. *)
Definition edges_of (tx : RawTransaction) (ts : string) : list FlowEdge :=
  flat_map
    (edges_for_output (tx_id_of tx) ts
       (input_summary_of (or_empty (inputs tx))) (total_input_sompi tx))
    (or_empty (outputs tx)).

(** The character [c] occurs in [s]. *)
Fixpoint occurs (c : ascii) (s : string) : bool :=
  match s with
  | EmptyString => false
  | String c' s' => Ascii.eqb c' c || occurs c s'
  end.

(** ** Sample inputs *)

Definition transfer (id : option string) (alt : option string)
    (time : option Z) (from to : string) (sompi : Z) : RawTransaction :=
  mkTx id alt time
    (Some [mkInput (Some from) (Some sompi)])
    (Some [mkOutput (Some to) (Some sompi)]).





(** Inputs without amount or worth nothing. *)
Definition tx_zero_total : RawTransaction :=
  mkTx (Some "t0") None (Some 1700000000000)
    (Some [mkInput None None; mkInput (Some "A") (Some 0)])
    (Some [mkOutput (Some "B") (Some 7)]).



(** Nothing to attribute, and dated 10000-01-01, which
    [format_timestamp] cannot print. *)
Definition tx_zero_total_year_10000 : RawTransaction :=
  mkTx (Some "far") None (Some 253402300800000)
    (Some [mkInput (Some "A") (Some 0)])
    (Some [mkOutput (Some "B") (Some 7)]).


Definition tx_2022 : RawTransaction :=
  transfer (Some "t1") None (Some 1650000000000) "A" "B" 5.
Definition tx_late_2021 : RawTransaction :=
  transfer (Some "t2") None (Some 1640000000000) "B" "A" 2.
Definition tx_2021 : RawTransaction :=
  transfer (Some "old") None (Some 1609459200000) "A" "B" 100.

(** An endpoint that serves the given pages in order, then empty
    pages. *)
Definition serve (pages : list (list entry)) (i : nat) (_ : string) (_ : Z)
  : response :=
  PageOf (nth i pages []).

Definition sample_now : Z := 1700000000000.

(** ** Definitions used to state further properties *)

(** What the aggregation loop reads from one input. *)
Definition sender_of (inp : Input) : string :=
  get (previous_outpoint_address inp) "UNKNOWN".

Definition contribution_of (inp : Input) : Z :=
  get (previous_outpoint_amount inp) 0.

(** The inputs that name [s] as their source. *)
Definition inputs_from (s : string) (ins : list Input) : list Input :=
  filter (fun inp => (sender_of inp =? s)%string) ins.

Definition keys (d : dict) : list string := map fst d.

Definition is_dict (e : entry) : bool :=
  match e with
  | TxDict _ => true
  | NonDict => false
  end.

(** Every transaction object of the page has a block time that
    [format_timestamp] accepts. *)
Definition page_formats (data : list entry) : bool :=
  forallb (fun e => match e with
                    | NonDict => true
                    | TxDict tx => match timestamp_of tx with
                                   | Ok _ => true
                                   | Raise _ => false
                                   end
                    end) data.


(** The block times [format_timestamp] accepts: from
    0001-01-01T00:00:00 to 9999-12-31T23:59:59.999, in milliseconds
    since the epoch. *)
Definition min_block_time : Z := -62135596800000.
Definition max_block_time : Z := 253402300799999.

(** The exception [format_timestamp] raises on a block time outside
    that range, by how far out it lies. *)
Definition range_error (ms : Z) : exn :=
  if (ms <? - time_t_max_block_time) || (time_t_max_block_time <? ms)
  then OverflowError
  else if (ms <? gmtime_min_block_time) || (gmtime_max_block_time <? ms)
  then OSError
  else ValueError.

Definition is_range_error (e : exn) : bool :=
  match e with
  | ValueError | OSError | OverflowError => true
  | _ => false
  end.

(** The edges a page contributes, entry by entry. *)
Definition page_edges (data : list entry) : list FlowEdge :=
  flat_map (fun e => match e with
                     | NonDict => []
                     | TxDict tx => match attribute tx with
                                    | Ok edges => edges
                                    | Raise _ => []
                                    end
                     end) data.

(** The notices a page prints: one per entry that is not a [dict]. *)
Definition page_notices (data : list entry) : list event :=
  repeat SkippingNonDict (List.length (filter (fun e => negb (is_dict e)) data)).

(** The timestamp is one that [format_timestamp] prints. *)
Definition utc_stamped (e : FlowEdge) : Prop :=
  exists ms, format_timestamp ms = Ok (timestamp e).

Definition rmap {A B : Type} (f : A -> B) (r : result A) : result B :=
  match r with
  | Ok a => Ok (f a)
  | Raise e => Raise e
  end.



(** The parts of a printed UTC timestamp. *)
Definition date_part (dt : datetime) : string :=
  pad4 (year dt) ++ "-" ++ pad2 (month dt) ++ "-" ++ pad2 (day dt).

Definition fraction_part (dt : datetime) : string :=
  if microsecond dt =? 0 then "" else "." ++ pad6 (microsecond dt).

Definition time_part (dt : datetime) : string :=
  pad2 (hour dt) ++ ":" ++ pad2 (minute dt) ++ ":" ++ pad2 (second dt)
  ++ fraction_part dt.

(** The check run over one 400-year cycle of the calendar: day [r] of
    the cycle (counted from 0) falls on a valid date of one of the
    years 1..400, the last of them starting at day 145731. *)
Definition cycle_days : Z := 146097.

(** [check] holds of [fuel] consecutive integers from [r] on. *)
Fixpoint all_ok (check : Z -> bool) (fuel : nat) (r : Z) : bool :=
  match fuel with
  | O => true
  | S fuel' => check r && all_ok check fuel' (r + 1)
  end.

Definition cycle_ok (r : Z) : bool :=
  let '(y, mo, d) := ord2ymd (r + 1) in
  (1 <=? y) && (y <=? 400) && (1 <=? mo) && (mo <=? 12)
  && (1 <=? d) && (d <=? days_in_month y mo)
  && Bool.eqb (y <=? 399) (r <? 145731).


(** * Properties *)

(** ** The printing monad *)

Lemma bind_ret {A B : Type} (a : A) (f : A -> M B) : bind (ret a) f = f a.
Proof. unfold bind, ret. destruct (f a). reflexivity. Qed.

Lemma bind_lift_ok {A B : Type} (a : A) (f : A -> M B) :
  bind (lift (Ok a)) f = f a.
Proof. apply bind_ret. Qed.

Lemma bind_print {B : Type} (ev : event) (k : M B) :
  bind (print ev) (fun _ => k) = after [ev] k.
Proof. unfold bind, print, after. destruct k. reflexivity. Qed.

Lemma bind_ok {A B : Type} (out : list event) (a : A) (f : A -> M B) :
  bind (out, Ok a) f = after out (f a).
Proof. unfold bind, after. destruct (f a). reflexivity. Qed.

Lemma after_after {A : Type} (o1 o2 : list event) (m : M A) :
  after o1 (after o2 m) = after (o1 ++ o2)%list m.
Proof. unfold after. simpl. now rewrite app_assoc. Qed.

(** ** Projection *)

Lemma mask_is_filter (X : string) (l : list FlowEdge) :
  map fst
    (filter snd
       (combine l
          (series_or (series_eq (map (edge_cell "sender") l) X)
                     (series_eq (map (edge_cell "recipient") l) X))))
  = filter (involves X) l.
Proof.
  induction l as [|e l IH]; [reflexivity|].
  unfold series_or, series_eq in *. simpl.
  change (edge_cell "sender" e) with (CStr (sender e)).
  change (edge_cell "recipient" e) with (CStr (recipient e)).
  unfold involves at 1. simpl.
  destruct ((sender e =? X)%string || (recipient e =? X)%string); simpl;
    now rewrite IH.
Qed.

Lemma filter_idempotent {A : Type} (f : A -> bool) (l : list A) :
  filter f (filter f l) = filter f l.
Proof.
  induction l as [|x l IH]; [reflexivity|].
  simpl. destruct (f x) eqn:E; simpl; [rewrite E|]; now rewrite IH.
Qed.

Lemma projection_with_columns (X : string) (l : list FlowEdge) :
  projection X (mkFrame edge_columns l)
  = ([FilteredRecords (List.length (filter (involves X) l)) X],
     Ok (mkFrame edge_columns (filter (involves X) l))).
Proof.
  unfold projection, getitem, getitem_mask, len. simpl.
  rewrite mask_is_filter. reflexivity.
Qed.

Lemma projection_no_columns (X : string) :
  projection X (mkFrame [] []) = ([NoTransactions], Ok (mkFrame [] [])).
Proof. reflexivity. Qed.

(** C7.  The projection computed in [trace_wallet] keeps exactly the
    edges whose sender or recipient is the tracked address, in their
    order, and projecting the projected dataset again gives it back. *)
Theorem projection_exact_and_idempotent (X : string)
    (records : list FlowEdge) :
  let txs := pd_DataFrame records in
  let projected := mkFrame (columns txs) (filter (involves X) records) in
  snd (projection X txs) = Ok projected
  /\ snd (projection X projected) = Ok projected.
Proof.
  destruct records as [|e l].
  - simpl. split; reflexivity.
  - cbv zeta. change (pd_DataFrame (e :: l)) with (mkFrame edge_columns (e :: l)).
    cbn [columns].
    rewrite !projection_with_columns. cbn [snd].
    now rewrite filter_idempotent.
Qed.

(** ** Empty dataset *)

Lemma fetch_all_participants_frame api now address max_pages out df :
  fetch_transactions_all_participants api now address max_pages = (out, Ok df) ->
  exists records,
    all_participants_loop api max_pages 0 address now [] = (out, Ok records)
    /\ df = pd_DataFrame records.
Proof.
  unfold fetch_transactions_all_participants.
  destruct (all_participants_loop api max_pages 0 address now [])
    as [o [records|e]]; simpl; intro H; [|discriminate].
  inversion H; subst. exists records. now rewrite app_nil_r.
Qed.

Lemma pd_DataFrame_len_0 records :
  len (pd_DataFrame records) = 0%nat -> pd_DataFrame records = mkFrame [] [].
Proof. destruct records; [reflexivity|discriminate]. Qed.

(** C9.  When the walk collected no record, [trace_wallet] does not
    raise: the filter fails on the column-less frame, the failure is
    caught ("no transactions"), the filtered dataset is the full one,
    and both files are written with the same empty dataset. *)
Theorem trace_wallet_empty_dataset api now address out txs :
  fetch_transactions_all_participants api now address default_max_pages
    = (out, Ok txs) ->
  len txs = 0%nat ->
  let stem := replace ":" "_" address in
  let full := path_join DATA_DIR (stem ++ "_all_participants.csv") in
  let filtered := path_join DATA_DIR (stem ++ "_involving.csv") in
  trace_wallet api now address
  = ((FetchingFullSet address :: out
      ++ [TotalCollected 0; NoTransactions; SavedFull full;
          SavedFiltered filtered])%list,
     Ok [(full, txs); (filtered, txs)])
  /\ txs = mkFrame [] [].
Proof.
  intros Hfetch Hlen.
  destruct (fetch_all_participants_frame _ _ _ _ _ _ Hfetch)
    as (records & _ & ->).
  apply pd_DataFrame_len_0 in Hlen.
  cbv zeta. split; [|exact Hlen].
  unfold trace_wallet. rewrite bind_print, Hfetch, bind_ok, Hlen.
  rewrite bind_print. rewrite projection_no_columns, bind_ok.
  rewrite !bind_print. unfold after, ret, len. simpl.
  reflexivity.
Qed.

Lemma trace_wallet_empty_dataset_witness :
  snd (trace_wallet (serve []) sample_now "kaspa:q")
  = Ok [("flow_data_fullhistory/kaspa_q_all_participants.csv",
         mkFrame [] []);
        ("flow_data_fullhistory/kaspa_q_involving.csv", mkFrame [] [])].
Proof.
  refine (f_equal snd
            (proj1 (trace_wallet_empty_dataset (serve []) sample_now
                      "kaspa:q"
                      [Fetching sample_now "kaspa:q"; NoMoreTransactions]
                      (mkFrame [] []) _ _))).
  - vm_compute. reflexivity.
  - reflexivity.
Defined.

(** ** Transaction identifier *)


Lemma mapM_ok_Forall {A B : Type} (P : B -> Prop) (f : A -> result B) l ys :
  (forall x y, f x = Ok y -> P y) ->
  mapM f l = Ok ys -> Forall P ys.
Proof.
  intro Hf. revert ys.
  induction l as [|x l IH]; simpl; intros ys H.
  - inversion H. constructor.
  - destruct (f x) as [y|] eqn:Ex; simpl in H; [|discriminate].
    destruct (mapM f l) as [ys'|]; simpl in H; [|discriminate].
    inversion H; subst. constructor; eauto.
Qed.

Lemma Forall_concat {A : Type} (P : A -> Prop) (ll : list (list A)) :
  Forall (Forall P) ll -> Forall P (List.concat ll).
Proof.
  induction 1; simpl; [constructor|]. apply Forall_app. now split.
Qed.

(** Every edge of a transaction carries the identifier and the
    timestamp computed at the top of the loop body. *)
Lemma attribute_labels tx edges :
  attribute tx = Ok edges ->
  exists ts, timestamp_of tx = Ok ts
    /\ Forall (fun e => tx_id e = tx_id_of tx /\ timestamp e = ts) edges.
Proof.
  unfold attribute.
  destruct (timestamp_of tx) as [ts|]; simpl; [|discriminate].
  intro H. exists ts. split; [reflexivity|].
  destruct (_ =? 0).
  - inversion H. constructor.
  - destruct (mapM _ _) as [per|] eqn:E; simpl in H; [|discriminate].
    inversion H; subst. apply Forall_concat.
    eapply mapM_ok_Forall; [|exact E].
    intros out es Hout. unfold attribute_output in Hout.
    eapply mapM_ok_Forall; [|exact Hout].
    intros [s c] e He.
    destruct (truediv c _); simpl in He; [|discriminate].
    inversion He. split; reflexivity.
Qed.





(** ** The attribution engine *)

Lemma mapM_total {A B : Type} (f : A -> result B) (g : A -> B) l :
  (forall x, In x l -> f x = Ok (g x)) -> mapM f l = Ok (map g l).
Proof.
  induction l as [|x l IH]; simpl; intro H; [reflexivity|].
  rewrite (H x (or_introl eq_refl)). simpl.
  rewrite IH by (intros; apply H; now right). reflexivity.
Qed.

Lemma truediv_nonzero c total :
  total <> 0 -> truediv c total = Ok (weight total c).
Proof.
  intro H. unfold truediv. apply Z.eqb_neq in H. now rewrite H.
Qed.

Lemma attribute_output_nonzero id ts summary total out :
  total <> 0 ->
  attribute_output id ts summary total out
  = Ok (edges_for_output id ts summary total out).
Proof.
  intro H. unfold attribute_output, edges_for_output.
  apply mapM_total. intros [s c] _.
  rewrite (truediv_nonzero _ _ H). reflexivity.
Qed.

Lemma attribute_nonzero tx ts :
  timestamp_of tx = Ok ts ->
  total_input_sompi tx <> 0 ->
  attribute tx = Ok (edges_of tx ts).
Proof.
  intros Hts Htotal. unfold attribute. rewrite Hts. simpl.
  fold (total_input_sompi tx).
  destruct (total_input_sompi tx =? 0) eqn:E;
    [apply Z.eqb_eq in E; contradiction|].
  rewrite (mapM_total _ (edges_for_output (tx_id_of tx) ts
             (input_summary_of (or_empty (inputs tx)))
             (total_input_sompi tx))).
  - simpl. unfold edges_of. now rewrite flat_map_concat_map.
  - intros out _. now apply attribute_output_nonzero.
Qed.

Lemma attribute_zero tx ts :
  timestamp_of tx = Ok ts ->
  total_input_sompi tx = 0 ->
  attribute tx = Ok [].
Proof.
  intros Hts Hzero. unfold attribute. rewrite Hts. simpl.
  fold (total_input_sompi tx). now rewrite Hzero.
Qed.

Lemma format_timestamp_raises ms e :
  format_timestamp ms = Raise e -> e = range_error ms.
Proof.
  unfold format_timestamp, fromtimestamp_ms_utc, range_error.
  destruct (_ || _); [intro H; now inversion H|].
  destruct (_ || _); [intro H; now inversion H|].
  destruct (ord2ymd _) as [[y mo] d]. unfold make_datetime.
  destruct (_ && _); cbn [rbind]; [discriminate|].
  intro H. now inversion H.
Qed.

Lemma range_error_class ms : is_range_error (range_error ms) = true.
Proof.
  unfold range_error. destruct (_ || _); [reflexivity|].
  destruct (_ || _); reflexivity.
Qed.

Lemma timestamp_of_raises tx e :
  timestamp_of tx = Raise e -> is_range_error e = true.
Proof.
  unfold timestamp_of. intro H. apply format_timestamp_raises in H.
  subst e. apply range_error_class.
Qed.

Lemma attribute_never_divides_by_zero tx :
  attribute tx <> Raise ZeroDivisionError.
Proof.
  destruct (timestamp_of tx) as [ts|e] eqn:Hts.
  - destruct (Z.eq_dec (total_input_sompi tx) 0) as [Hz|Hnz].
    + now rewrite (attribute_zero _ _ Hts Hz).
    + now rewrite (attribute_nonzero _ _ Hts Hnz).
  - unfold attribute. rewrite Hts. cbn [rbind].
    apply timestamp_of_raises in Hts. intro H. inversion H; subst.
    discriminate Hts.
Qed.

Lemma process_page_all_tx tx edges rest records :
  attribute tx = Ok edges ->
  process_page_all (TxDict tx :: rest) records
  = process_page_all rest (records ++ edges)%list.
Proof.
  intro H. cbn [process_page_all]. rewrite H. now rewrite bind_lift_ok.
Qed.

(** C4, as the code has it.  The division by the total is never
    reached with a zero divisor, for any transaction; and a transaction
    whose aggregated input total is zero and whose block time
    [format_timestamp] prints contributes no edge, the page loop going
    on with the next entry. *)
Theorem zero_total_input_is_skipped (tx : RawTransaction) :
  attribute tx <> Raise ZeroDivisionError
  /\ (total_input_sompi tx = 0 ->
      forall ts, timestamp_of tx = Ok ts ->
      attribute tx = Ok []
      /\ forall rest records,
           process_page_all (TxDict tx :: rest) records
           = process_page_all rest records).
Proof.
  split; [apply attribute_never_divides_by_zero|].
  intros Hzero ts Hts.
  pose proof (attribute_zero _ _ Hts Hzero) as Hskip.
  split; [exact Hskip|].
  intros rest records.
  rewrite (process_page_all_tx _ _ _ _ Hskip). now rewrite app_nil_r.
Qed.

Lemma zero_total_input_is_skipped_witness :
  total_input_sompi tx_zero_total = 0
  /\ attribute tx_zero_total = Ok []
  /\ process_page_all [TxDict tx_zero_total; TxDict tx_2022] []
     = process_page_all [TxDict tx_2022] [].
Proof.
  split; [reflexivity|].
  destruct (proj2 (zero_total_input_is_skipped tx_zero_total) eq_refl
              "2023-11-14T22:13:20+00:00" eq_refl) as [Hskip Hnext].
  split; [exact Hskip|apply Hnext].
Defined.

(** The timestamp is formatted before the total is looked at: a
    transaction with nothing to attribute and a block time in the year
    10000 is not skipped, it ends the page with the formatter's
    exception, and the transaction after it is never reached. *)
Lemma zero_total_unprintable_is_not_skipped :
  total_input_sompi tx_zero_total_year_10000 = 0
  /\ attribute tx_zero_total_year_10000 = Raise ValueError
  /\ process_page_all [TxDict tx_zero_total_year_10000; TxDict tx_2022] []
     = ([], Raise ValueError)
  /\ process_page_all [TxDict tx_2022] []
     = ([], Ok [mkEdge "t1" "2022-04-15T05:20:00+00:00" "A" "B"
                  (inject_Z 5 * (inject_Z 5 / inject_Z 5) / e8)%Q]).
Proof. repeat split. Qed.



(** *** Conservation of value *)

Lemma fold_left_add_shift l a : fold_left Z.add l a = a + sum l.
Proof.
  unfold sum. revert a.
  induction l as [|x l IH]; intro a; simpl; [lia|].
  rewrite (IH (a + x)), (IH x). lia.
Qed.

Lemma sum_cons x l : sum (x :: l) = x + sum l.
Proof. unfold sum at 1. simpl. apply fold_left_add_shift. Qed.















(** ** Missing block time *)




(** ** Pagination *)

Lemma requests_app o1 o2 :
  requests (o1 ++ o2) = (requests o1 ++ requests o2)%list.
Proof.
  induction o1 as [|ev o1 IH]; [reflexivity|].
  destruct ev; simpl; now rewrite IH.
Qed.

Lemma process_page_all_no_request data records :
  requests (fst (process_page_all data records)) = [].
Proof.
  revert records. induction data as [|[|tx] rest IH]; intro records.
  - reflexivity.
  - cbn [process_page_all]. rewrite bind_print. unfold after.
    cbn [fst]. rewrite requests_app. apply IH.
  - cbn [process_page_all]. destruct (attribute tx) as [edges|e].
    + rewrite bind_lift_ok. apply IH.
    + reflexivity.
Qed.




Lemma all_participants_loop_page api n i address before records data out
    records' before' :
  api i address before = PageOf data ->
  data <> [] ->
  process_page_all data records = (out, Ok records') ->
  next_before data before = Ok before' ->
  all_participants_loop api (S n) i address before records
  = after (Fetching before address :: out)
      (all_participants_loop api n (S i) address before' records').
Proof.
  intros Hapi Hne Hpage Hnext. cbn [all_participants_loop].
  rewrite bind_print, Hapi.
  destruct data as [|e l]; [contradiction|].
  rewrite Hpage, bind_ok, Hnext, bind_lift_ok, after_after. reflexivity.
Qed.


Lemma loop_stops_at_end api n i address before records :
  api i address before = NotAList \/ api i address before = PageOf [] ->
  all_participants_loop api (S n) i address before records
  = ([Fetching before address; NoMoreTransactions], Ok records).
Proof.
  intros [H|H]; cbn [all_participants_loop]; now rewrite H.
Qed.

Lemma requests_after {A : Type} out (m : M A) :
  requests (fst (after out m)) = (requests out ++ requests (fst m))%list.
Proof. unfold after. cbn [fst]. apply requests_app. Qed.





(** *** Termination and the page budget *)

Lemma all_participants_loop_budget api max_pages i address before records :
  (List.length
     (requests
        (fst (all_participants_loop api max_pages i address before records)))
   <= max_pages)%nat.
Proof.
  revert i before records.
  induction max_pages as [|n IH]; intros i before records; [simpl; lia|].
  cbn [all_participants_loop]. rewrite bind_print, requests_after.
  cbn [requests List.length app].
  apply le_n_S.
  destruct (api i address before) as [| |[|e l]]; try (simpl; lia).
  pose proof (process_page_all_no_request (e :: l) records) as Hno.
  destruct (process_page_all (e :: l) records) as [out [records'|ex]];
    cbn [fst] in Hno.
  - rewrite bind_ok, requests_after, Hno. cbn [app].
    destruct (next_before (e :: l) before) as [before'|ex].
    + rewrite bind_lift_ok. apply IH.
    + simpl. lia.
  - cbn [bind fst]. rewrite Hno. simpl. lia.
Qed.

Lemma fetch_all_participants_requests api now address max_pages :
  requests (fst (fetch_transactions_all_participants api now address max_pages))
  = requests (fst (all_participants_loop api max_pages 0 address now [])).
Proof.
  unfold fetch_transactions_all_participants.
  destruct (all_participants_loop api max_pages 0 address now [])
    as [out [records|ex]]; [|reflexivity].
  rewrite bind_ok. unfold after, ret. cbn [fst]. now rewrite app_nil_r.
Qed.

(** C6.  The page-fetch loop is a bounded iteration: it never issues
    more than [max_pages] requests; a response that is not a list, or
    an empty list, ends it at once with the records gathered so far;
    and when the third page is empty the records are those of the
    first two pages, three requests having been issued, without
    error. *)
Theorem fetch_loop_terminates api now address max_pages :
  (List.length
     (requests
        (fst (fetch_transactions_all_participants api now address max_pages)))
   <= max_pages)%nat
  /\ (forall n i before records,
         api i address before = NotAList
         \/ api i address before = PageOf [] ->
         all_participants_loop api (S n) i address before records
         = ([Fetching before address; NoMoreTransactions], Ok records))
  /\ (forall p1 p2 o1 r1 b1 o2 r2 b2,
         (3 <= max_pages)%nat ->
         api 0%nat address now = PageOf p1 -> p1 <> [] ->
         process_page_all p1 [] = (o1, Ok r1) ->
         next_before p1 now = Ok b1 ->
         api 1%nat address b1 = PageOf p2 -> p2 <> [] ->
         process_page_all p2 r1 = (o2, Ok r2) ->
         next_before p2 b1 = Ok b2 ->
         api 2%nat address b2 = PageOf [] ->
         fetch_transactions_all_participants api now address max_pages
         = ((Fetching now address :: o1
             ++ Fetching b1 address :: o2
             ++ [Fetching b2 address; NoMoreTransactions])%list,
            Ok (pd_DataFrame r2))).
Proof.
  split; [|split].
  - rewrite fetch_all_participants_requests.
    apply all_participants_loop_budget.
  - intros. now apply loop_stops_at_end.
  - intros p1 p2 o1 r1 b1 o2 r2 b2 Hmax Ha1 Hn1 Hp1 Hb1 Ha2 Hn2 Hp2 Hb2 Ha3.
    destruct max_pages as [|[|[|n]]]; try lia.
    unfold fetch_transactions_all_participants.
    rewrite (all_participants_loop_page _ _ _ _ _ _ _ _ _ _ Ha1 Hn1 Hp1 Hb1).
    rewrite (all_participants_loop_page _ _ _ _ _ _ _ _ _ _ Ha2 Hn2 Hp2 Hb2).
    rewrite (loop_stops_at_end _ _ _ _ _ _ (or_intror Ha3)).
    unfold after, bind, ret. cbn [fst snd].
    rewrite app_nil_r. reflexivity.
Qed.

Lemma fetch_loop_terminates_witness :
  exists out r2,
    fetch_transactions_all_participants
      (serve [[TxDict tx_2022]; [TxDict tx_late_2021]; []]) sample_now "a"
      default_max_pages
    = (out, Ok (pd_DataFrame r2))
    /\ requests out = [1700000000000; 1650000000000; 1640000000000]
    /\ map tx_id r2 = ["t1"; "t2"].
Proof.
  destruct (fetch_loop_terminates
              (serve [[TxDict tx_2022]; [TxDict tx_late_2021]; []])
              sample_now "a" default_max_pages)
    as (_ & _ & Hthird).
  eexists. eexists. split; [|split].
  - eapply (Hthird [TxDict tx_2022] [TxDict tx_late_2021]).
    + apply Nat.leb_le. vm_compute. reflexivity.
    + reflexivity.
    + discriminate.
    + vm_compute. reflexivity.
    + reflexivity.
    + reflexivity.
    + discriminate.
    + vm_compute. reflexivity.
    + reflexivity.
    + reflexivity.
  - reflexivity.
  - reflexivity.
Defined.

(** ** The cutoff policy *)

(** The three ways out of [is_before_cutoff]. *)
Lemma is_before_cutoff_unparsable s e :
  fromisoformat (replace "Z" "+00:00" s) = Raise e ->
  is_before_cutoff s = ([TimestampParsingFailed s], Ok false).
Proof. intro H. unfold is_before_cutoff. now rewrite H. Qed.

Lemma is_before_cutoff_naive s dt :
  fromisoformat (replace "Z" "+00:00" s) = Ok dt ->
  tzinfo dt = None ->
  is_before_cutoff s = ([], Ok (lex_lt (fields dt) (fields CUTOFF_DATE))).
Proof.
  intros H Htz. unfold is_before_cutoff, datetime_lt.
  now rewrite H, bind_lift_ok, Htz.
Qed.

Lemma is_before_cutoff_aware s dt :
  fromisoformat (replace "Z" "+00:00" s) = Ok dt ->
  tzinfo dt <> None ->
  is_before_cutoff s = ([TimestampParsingFailed s], Ok false).
Proof.
  intros H Htz. unfold is_before_cutoff, datetime_lt.
  rewrite H, bind_lift_ok.
  destruct (tzinfo dt); [reflexivity|contradiction].
Qed.

(** *** Shape of a formatted timestamp *)

Lemma occurs_app c s1 s2 :
  occurs c (s1 ++ s2) = occurs c s1 || occurs c s2.
Proof.
  induction s1 as [|c' s1 IH]; [reflexivity|].
  simpl. now rewrite IH, orb_assoc.
Qed.

Lemma replace_absent c new s : occurs c s = false -> replace c new s = s.
Proof.
  induction s as [|c' s IH]; [reflexivity|].
  simpl. intro H. apply orb_false_iff in H. destruct H as [Hc Hs].
  now rewrite Hc, IH.
Qed.

Lemma find_occurs c s : occurs c s = true -> find c s <> None.
Proof.
  induction s as [|c' s IH]; simpl; [discriminate|].
  destruct (Ascii.eqb c' c); simpl; [discriminate|].
  intro H. specialize (IH H). now destruct (find c s).
Qed.

Lemma digit_is_decimal n :
  exists k, (k < 10)%nat /\ digit n = ascii_of_nat (48 + k).
Proof.
  exists (Z.to_nat (n mod 10)). split; [|reflexivity].
  pose proof (Z.mod_pos_bound n 10 ltac:(lia)). lia.
Qed.

Lemma digit_not_Z n : Ascii.eqb (digit n) "Z" = false.
Proof.
  destruct (digit_is_decimal n) as (k & Hk & ->).
  do 10 (destruct k as [|k]; [reflexivity|]). lia.
Qed.

Lemma pad2_no_Z n : occurs "Z" (pad2 n) = false.
Proof. unfold pad2. cbn [occurs]. rewrite !digit_not_Z. reflexivity. Qed.

Lemma pad4_no_Z n : occurs "Z" (pad4 n) = false.
Proof.
  unfold pad4. cbn [occurs]. rewrite !digit_not_Z, pad2_no_Z. reflexivity.
Qed.

Lemma pad6_no_Z n : occurs "Z" (pad6 n) = false.
Proof.
  unfold pad6. cbn [occurs]. rewrite !digit_not_Z, pad4_no_Z. reflexivity.
Qed.

Lemma format_offset_no_Z off : occurs "Z" (format_offset off) = false.
Proof.
  unfold format_offset. rewrite !occurs_app, !pad2_no_Z.
  destruct (off <? 0); reflexivity.
Qed.

Lemma isoformat_no_Z dt : occurs "Z" (isoformat dt) = false.
Proof.
  unfold isoformat.
  rewrite !occurs_app, pad4_no_Z, !pad2_no_Z.
  destruct (microsecond dt =? 0), (tzinfo dt);
    rewrite ?occurs_app, ?pad6_no_Z, ?format_offset_no_Z; reflexivity.
Qed.

Lemma slice_from_app (prefix rest : string) :
  slice_from (String.length prefix) (prefix ++ rest) = rest.
Proof.
  induction prefix as [|c p IH]; simpl; [now destruct rest|exact IH].
Qed.

(** An aware datetime prints as eleven characters of date and
    separator, the time, and an offset that starts with a sign. *)
Lemma isoformat_aware_shape dt off :
  tzinfo dt = Some off ->
  exists date time_part,
    String.length date = 11%nat
    /\ isoformat dt = date ++ time_part ++ format_offset off.
Proof.
  intro Htz.
  exists (pad4 (year dt) ++ "-" ++ pad2 (month dt) ++ "-" ++ pad2 (day dt)
          ++ "T").
  exists (pad2 (hour dt) ++ ":" ++ pad2 (minute dt) ++ ":"
          ++ pad2 (second dt)
          ++ (if microsecond dt =? 0 then "" else "." ++ pad6 (microsecond dt))).
  split; [reflexivity|].
  unfold isoformat. rewrite Htz.
  destruct (microsecond dt =? 0); reflexivity.
Qed.

Lemma format_offset_has_sign off :
  occurs "-" (format_offset off) || occurs "+" (format_offset off) = true.
Proof.
  unfold format_offset. destruct (off <? 0).
  - rewrite (occurs_app "-" "-"). reflexivity.
  - rewrite orb_comm, (occurs_app "+" "+"). reflexivity.
Qed.

Lemma find_tz_signed s :
  occurs "-" s || occurs "+" s = true -> find_tz s <> None.
Proof.
  intro H. unfold find_tz.
  destruct (find "-" s) eqn:Eminus; [discriminate|].
  destruct (find "+" s) eqn:Eplus; [discriminate|].
  apply orb_true_iff in H. destruct H as [H|H]; apply find_occurs in H;
    contradiction.
Qed.

Lemma signed_suffix s suffix :
  occurs "-" suffix || occurs "+" suffix = true ->
  occurs "-" (s ++ suffix) || occurs "+" (s ++ suffix) = true.
Proof.
  rewrite !occurs_app.
  destruct (occurs "-" s), (occurs "+" s), (occurs "-" suffix),
    (occurs "+" suffix); intro H; try reflexivity; discriminate H.
Qed.

(** *** Parsing a string with a signed suffix never gives a naive
    datetime *)

Lemma make_datetime_tzinfo y mo d h mi s us tz dt :
  make_datetime y mo d h mi s us tz = Ok dt -> tzinfo dt = tz.
Proof.
  unfold make_datetime. destruct (_ && _); [|discriminate].
  intro H. inversion H. reflexivity.
Qed.

Lemma parse_isoformat_time_aware tstr hh mm ss us tz :
  find_tz tstr <> None ->
  parse_isoformat_time tstr = Ok (hh, mm, ss, us, tz) ->
  tz <> None.
Proof.
  intro Hfind. unfold parse_isoformat_time.
  destruct (String.length tstr <? 2)%nat; [discriminate|].
  destruct (find_tz tstr) as [tz_pos|]; [|contradiction].
  destruct (parse_hh_mm_ss_ff (slice 0 (tz_pos - 1) tstr))
    as [[[[h1 m1] s1] u1]|]; [|discriminate].
  cbn [rbind]. destruct (negb _); [discriminate|].
  destruct (parse_hh_mm_ss_ff (slice_from tz_pos tstr))
    as [[[[th tm] ts] tu]|]; [|discriminate].
  cbn [rbind]. destruct (_ && _); [|discriminate].
  intro H. inversion H. discriminate.
Qed.

Lemma slice_from_short n s :
  (String.length s <= n)%nat -> slice_from n s = "".
Proof.
  revert s. induction n as [|n IH]; intros [|c s] H; try reflexivity.
  - simpl in H. lia.
  - simpl. apply IH. simpl in H. lia.
Qed.

Lemma fromisoformat_aware s dt :
  find_tz (slice_from 11 s) <> None ->
  fromisoformat s = Ok dt ->
  tzinfo dt <> None.
Proof.
  intro Hfind. unfold fromisoformat.
  destruct (String.length s <? 10)%nat; [discriminate|].
  destruct (parse_isoformat_date (slice 0 10 s)) as [[[y mo] d]|];
    [|discriminate].
  cbn [rbind].
  destruct (String.length s =? 10)%nat eqn:Elen.
  - apply Nat.eqb_eq in Elen.
    rewrite slice_from_short in Hfind by lia. now elim Hfind.
  - destruct (parse_isoformat_time (slice_from 11 s))
      as [[[[[hh mm] ss] us] tz]|] eqn:Ep; [|discriminate].
    cbn [rbind]. intro H.
    rewrite (make_datetime_tzinfo _ _ _ _ _ _ _ _ _ H).
    exact (parse_isoformat_time_aware _ _ _ _ _ _ Hfind Ep).
Qed.

Lemma format_timestamp_aware ms ts :
  format_timestamp ms = Ok ts ->
  exists dt, ts = isoformat dt /\ tzinfo dt = Some 0.
Proof.
  unfold format_timestamp, fromtimestamp_ms_utc.
  destruct (_ || _); [discriminate|].
  destruct (_ || _); [discriminate|].
  destruct (ord2ymd _) as [[y mo] d].
  destruct (make_datetime _ _ _ _ _ _ _ _) as [dt|] eqn:E; [|discriminate].
  cbn [rbind]. intro H. inversion H. exists dt. split; [reflexivity|].
  exact (make_datetime_tzinfo _ _ _ _ _ _ _ _ _ E).
Qed.

(** The policy fails open on every timestamp that [format_timestamp]
    produces: such a string carries the "+00:00" offset, so it parses
    to an aware datetime (or not at all), and ordering it against the
    naive [CUTOFF_DATE] is a [TypeError] that the handler turns into
    [False]. *)
Lemma is_before_cutoff_formatted ms ts :
  format_timestamp ms = Ok ts ->
  is_before_cutoff ts = ([TimestampParsingFailed ts], Ok false).
Proof.
  intro Hfmt.
  destruct (format_timestamp_aware _ _ Hfmt) as (dt & -> & Htz).
  destruct (fromisoformat (replace "Z" "+00:00" (isoformat dt)))
    as [parsed|e] eqn:Eparse.
  - apply (is_before_cutoff_aware _ parsed Eparse).
    rewrite (replace_absent _ _ _ (isoformat_no_Z dt)) in Eparse.
    apply (fromisoformat_aware _ _ ) in Eparse; [exact Eparse|].
    destruct (isoformat_aware_shape dt 0 Htz) as (date & tp & Hlen & ->).
    rewrite <- Hlen, slice_from_app.
    apply find_tz_signed, signed_suffix, format_offset_has_sign.
  - exact (is_before_cutoff_unparsable _ e Eparse).
Qed.

(** Consequently the direct variant never sees its cutoff. *)
Lemma process_page_cutoff_never_found data records out records' found :
  process_page_cutoff data records = (out, Ok (records', found)) ->
  found = false.
Proof.
  revert records out.
  induction data as [|[|tx] rest IH]; intros records out.
  - unfold process_page_cutoff, ret. intro H. now inversion H.
  - cbn [process_page_cutoff]. rewrite bind_print. unfold after.
    destruct (process_page_cutoff rest records) as [o r] eqn:E.
    cbn [fst snd]. intro H. inversion H; subst. eapply IH. exact E.
  - cbn [process_page_cutoff].
    destruct (timestamp_of tx) as [ts|e] eqn:Hts; [|discriminate].
    rewrite bind_lift_ok, (is_before_cutoff_formatted _ _ Hts), bind_ok.
    unfold after.
    destruct (process_page_cutoff rest _) as [o r] eqn:E.
    cbn [fst snd]. intro H. inversion H; subst. eapply IH. exact E.
Qed.

(** C3.  On the timestamp of a transaction a year older than the
    cutoff, as [format_timestamp] prints it, the policy answers [False]
    and reports a parsing failure, although the string parses to
    2021-01-01T00:00:00 UTC. *)
Theorem is_before_cutoff_misses_aware_timestamp :
  format_timestamp 1609459200000 = Ok "2021-01-01T00:00:00+00:00"
  /\ fromisoformat (replace "Z" "+00:00" "2021-01-01T00:00:00+00:00")
     = Ok (mkDatetime 2021 1 1 0 0 0 0 (Some 0))
  /\ lex_lt (fields (mkDatetime 2021 1 1 0 0 0 0 (Some 0))) (fields CUTOFF_DATE)
     = true
  /\ is_before_cutoff "2021-01-01T00:00:00+00:00"
     = ([TimestampParsingFailed "2021-01-01T00:00:00+00:00"], Ok false)
  /\ is_before_cutoff "2021-01-01T00:00:00" = ([], Ok true).
Proof. repeat split; vm_compute; reflexivity. Qed.

(** ** The walk of [trace_wallet] and the cutoff *)

(** The page loop of the all-participants variant prints nothing but
    the notice for skipped entries: the cutoff policy, which reports
    through [TimestampParsingFailed] and [ReachedCutoff], is not part
    of it. *)
Lemma process_page_all_prints_only_skips data records :
  Forall (fun ev => ev = SkippingNonDict)
    (fst (process_page_all data records)).
Proof.
  revert records. induction data as [|[|tx] rest IH]; intro records.
  - constructor.
  - cbn [process_page_all]. rewrite bind_print. unfold after. cbn [fst app].
    constructor; [reflexivity|apply IH].
  - cbn [process_page_all]. destruct (attribute tx) as [edges|e].
    + rewrite bind_lift_ok. apply IH.
    + constructor.
Qed.


(** * Further properties *)

(** ** The sender dictionary *)

Lemma dict_get_set_same d k v default :
  dict_get (dict_set d k v) k default = v.
Proof.
  induction d as [|[k' v'] d IH]; simpl.
  - now rewrite String.eqb_refl.
  - destruct (k' =? k)%string eqn:E; simpl; rewrite E; [reflexivity|exact IH].
Qed.

Lemma dict_get_set_other d k v k' default :
  k' <> k ->
  dict_get (dict_set d k v) k' default = dict_get d k' default.
Proof.
  intro Hne. induction d as [|[k0 v0] d IH]; simpl.
  - destruct (k =? k')%string eqn:E; [|reflexivity].
    apply String.eqb_eq in E. now subst.
  - destruct (k0 =? k)%string eqn:E; simpl.
    + apply String.eqb_eq in E. subst k0.
      destruct (k =? k')%string eqn:E'; [|reflexivity].
      apply String.eqb_eq in E'. now subst.
    + destruct (k0 =? k')%string; [reflexivity|exact IH].
Qed.

Lemma dict_set_keys d k v :
  keys (dict_set d k v)
  = if existsb (fun k' => (k' =? k)%string) (keys d) then keys d
    else (keys d ++ [k])%list.
Proof.
  unfold keys. induction d as [|[k' v'] d IH]; simpl; [reflexivity|].
  destruct (k' =? k)%string eqn:E; simpl; [reflexivity|].
  rewrite IH. now destruct (existsb _ _).
Qed.

Lemma existsb_eqb_In k l :
  existsb (fun k' => (k' =? k)%string) l = true <-> In k l.
Proof.
  rewrite existsb_exists. split.
  - intros (x & Hx & E). apply String.eqb_eq in E. now subst.
  - intro H. exists k. split; [exact H|apply String.eqb_refl].
Qed.

Lemma dict_set_In_keys d k v s :
  In s (keys (dict_set d k v)) <-> In s (keys d) \/ s = k.
Proof.
  rewrite dict_set_keys.
  destruct (existsb _ _) eqn:E.
  - apply existsb_eqb_In in E. split; [now left|].
    intros [H| ->]; assumption.
  - rewrite in_app_iff. simpl. intuition.
Qed.

Lemma dict_set_NoDup d k v : NoDup (keys d) -> NoDup (keys (dict_set d k v)).
Proof.
  intro Hd. rewrite dict_set_keys.
  destruct (existsb _ _) eqn:E; [exact Hd|].
  apply NoDup_app; [exact Hd|repeat constructor; intros []|].
  intros x Hx [<-|[]].
  apply existsb_eqb_In in Hx. congruence.
Qed.

Lemma dict_set_sum d k a :
  sum (dict_values (dict_set d k (dict_get d k 0 + a)))
  = sum (dict_values d) + a.
Proof.
  unfold dict_values.
  induction d as [|[k' v'] d IH]; simpl.
  - unfold sum. simpl. lia.
  - destruct (k' =? k)%string; simpl; rewrite !sum_cons; [lia|].
    rewrite IH. lia.
Qed.

(** One step of the aggregation loop. *)
Lemma input_summary_step ins acc :
  fold_left
    (fun summary inp =>
       let sender := get (previous_outpoint_address inp) "UNKNOWN" in
       dict_set summary sender
         (dict_get summary sender 0 + get (previous_outpoint_amount inp) 0))
    ins acc
  = fold_left
      (fun summary inp =>
         dict_set summary (sender_of inp)
           (dict_get summary (sender_of inp) 0 + contribution_of inp))
      ins acc.
Proof. reflexivity. Qed.

Lemma summary_fold_invariant ins acc :
  let summary :=
    fold_left
      (fun summary inp =>
         dict_set summary (sender_of inp)
           (dict_get summary (sender_of inp) 0 + contribution_of inp))
      ins acc in
  (NoDup (keys acc) -> NoDup (keys summary))
  /\ (forall s, In s (keys summary)
                <-> In s (keys acc) \/ exists inp, In inp ins /\ sender_of inp = s)
  /\ (forall s, dict_get summary s 0
                = dict_get acc s 0
                  + sum (map contribution_of (inputs_from s ins)))
  /\ sum (dict_values summary)
     = sum (dict_values acc) + sum (map contribution_of ins).
Proof.
  revert acc. induction ins as [|inp ins IH]; intro acc; cbn zeta.
  - simpl. repeat split; auto.
    + intros [H|(inp & [] & _)]; exact H.
    + unfold sum. simpl. lia.
    + unfold sum. simpl. lia.
  - cbn [fold_left].
    destruct (IH (dict_set acc (sender_of inp)
                    (dict_get acc (sender_of inp) 0 + contribution_of inp)))
      as (Hnd & Hkeys & Hget & Hsum).
    split; [|split; [|split]].
    + intro Hacc. apply Hnd. now apply dict_set_NoDup.
    + intro s. rewrite Hkeys, dict_set_In_keys. split.
      * intros [[H|H]|(i & Hi & Hs)].
        -- now left.
        -- right. exists inp. split; [now left|congruence].
        -- right. exists i. split; [now right|exact Hs].
      * intros [H|(i & [<-|Hi] & Hs)].
        -- left. now left.
        -- left. right. congruence.
        -- right. now exists i.
    + intro s. rewrite Hget. unfold inputs_from. cbn [filter].
      destruct (sender_of inp =? s)%string eqn:E.
      * apply String.eqb_eq in E. subst s.
        rewrite dict_get_set_same. cbn [map]. rewrite sum_cons. lia.
      * rewrite dict_get_set_other; [reflexivity|].
        intro Heq. subst s. now rewrite String.eqb_refl in E.
    + rewrite Hsum, dict_set_sum. cbn [map]. rewrite sum_cons. lia.
Qed.



(** X1.  The sender dictionary built from the inputs has one entry per
    distinct source address, and the entry of an address holds the sum
    of the amounts of the inputs that name it (a missing address counts
    as "UNKNOWN", a missing amount as 0). *)
Theorem input_summary_groups_by_sender (ins : list Input) :
  NoDup (keys (input_summary_of ins))
  /\ (forall s, In s (keys (input_summary_of ins))
                <-> exists inp, In inp ins /\ sender_of inp = s)
  /\ (forall s, dict_get (input_summary_of ins) s 0
                = sum (map contribution_of (inputs_from s ins))).
Proof.
  unfold input_summary_of. rewrite input_summary_step.
  destruct (summary_fold_invariant ins []) as (Hnd & Hkeys & Hget & _).
  split; [apply Hnd; constructor|]. split.
  - intro s. rewrite Hkeys. simpl. intuition.
  - intro s. rewrite Hget. simpl. lia.
Qed.

(** X2.  The total that decides whether a transaction is skipped, and
    that divides every contribution, is the plain sum of the amounts of
    all its inputs. *)
Theorem total_input_is_sum_of_inputs (tx : RawTransaction) :
  total_input_sompi tx = sum (map contribution_of (or_empty (inputs tx))).
Proof.
  unfold total_input_sompi, input_summary_of. rewrite input_summary_step.
  destruct (summary_fold_invariant (or_empty (inputs tx)) [])
    as (_ & _ & _ & Hsum).
  rewrite Hsum. unfold sum at 1. simpl. lia.
Qed.

(** ** Shares *)









(** *** A single source *)





(** ** The direct variant counts every output once per input *)




(** ** Pages *)

Lemma attribute_result tx :
  attribute tx
  = match timestamp_of tx with
    | Ok ts => Ok (if total_input_sompi tx =? 0 then [] else edges_of tx ts)
    | Raise e => Raise e
    end.
Proof.
  destruct (timestamp_of tx) as [ts|e] eqn:Hts.
  - destruct (total_input_sompi tx =? 0) eqn:E.
    + apply Z.eqb_eq in E. exact (attribute_zero tx ts Hts E).
    + apply Z.eqb_neq in E. exact (attribute_nonzero tx ts Hts E).
  - unfold attribute. now rewrite Hts.
Qed.

Lemma process_page_all_formats data records :
  page_formats data = true ->
  process_page_all data records
  = (page_notices data, Ok (records ++ page_edges data)%list).
Proof.
  revert records. induction data as [|[|tx] rest IH]; intros records Hfmt.
  - cbn. now rewrite app_nil_r.
  - cbn [process_page_all]. rewrite bind_print, (IH records Hfmt).
    reflexivity.
  - cbn [page_formats forallb] in Hfmt. apply andb_true_iff in Hfmt.
    destruct Hfmt as [Htx Hrest].
    cbn [process_page_all page_edges flat_map]. rewrite attribute_result.
    destruct (timestamp_of tx) as [ts|]; [|discriminate].
    rewrite bind_lift_ok, (IH _ Hrest), <- app_assoc. reflexivity.
Qed.

Lemma process_page_all_fails data records :
  page_formats data = false ->
  exists e,
    snd (process_page_all data records) = Raise e
    /\ is_range_error e = true.
Proof.
  revert records. induction data as [|[|tx] rest IH]; intros records Hfmt.
  - discriminate.
  - cbn [process_page_all]. rewrite bind_print. unfold after. cbn [snd].
    now apply IH.
  - cbn [page_formats forallb] in Hfmt.
    cbn [process_page_all]. rewrite attribute_result.
    destruct (timestamp_of tx) as [ts|e] eqn:Hts.
    + rewrite bind_lift_ok. now apply IH.
    + exists e. split; [reflexivity|exact (timestamp_of_raises _ _ Hts)].
Qed.




(** ** The accumulator *)

Lemma process_page_all_acc data r1 r2 :
  process_page_all data (r1 ++ r2)
  = (fst (process_page_all data r2),
     rmap (app r1) (snd (process_page_all data r2))).
Proof.
  revert r2. induction data as [|[|tx] rest IH]; intro r2.
  - reflexivity.
  - cbn [process_page_all]. rewrite !bind_print, IH. reflexivity.
  - cbn [process_page_all]. destruct (attribute tx) as [edges|e].
    + rewrite !bind_lift_ok, <- app_assoc. apply IH.
    + reflexivity.
Qed.

Lemma all_participants_loop_acc api n i address before r1 r2 :
  all_participants_loop api n i address before (r1 ++ r2)
  = (fst (all_participants_loop api n i address before r2),
     rmap (app r1) (snd (all_participants_loop api n i address before r2))).
Proof.
  revert i before r2. induction n as [|n IH]; intros i before r2.
  - reflexivity.
  - cbn [all_participants_loop]. rewrite !bind_print.
    destruct (api i address before) as [| |[|e l]]; try reflexivity.
    rewrite process_page_all_acc.
    destruct (process_page_all (e :: l) r2) as [out [records'|ex]];
      [|reflexivity].
    cbn [fst snd rmap]. rewrite !bind_ok.
    destruct (next_before (e :: l) before) as [before'|ex]; [|reflexivity].
    rewrite !bind_lift_ok, IH. reflexivity.
Qed.

(** X7.  The fetch loop never reads, drops or reorders what it has
    gathered: started from any records, it prints the same trace and
    returns those records followed by what it returns when started
    from none (or raises the same exception). *)
Theorem loop_only_appends api n i address before (records : list FlowEdge) :
  all_participants_loop api n i address before records
  = (fst (all_participants_loop api n i address before []),
     rmap (app records)
       (snd (all_participants_loop api n i address before []))).
Proof.
  rewrite <- (app_nil_r records) at 1. apply all_participants_loop_acc.
Qed.

(** ** The direct variant, page by page *)






(** ** The identifier on the edges *)





(** ** The two walks *)

Lemma page_formats_cases data : {page_formats data = true} + {page_formats data = false}.
Proof. destruct (page_formats data); [now left|now right]. Qed.








(** ** Exceptions of the walk *)

Lemma next_before_raises data before e :
  data <> [] -> next_before data before = Raise e -> e = AttributeError.
Proof.
  intro Hne. unfold next_before.
  destruct (rev data) as [|[|tx] l] eqn:Er.
  - apply (f_equal (@rev entry)) in Er. rewrite rev_involutive in Er.
    contradiction.
  - intro H. now inversion H.
  - discriminate.
Qed.

(** X10.  On pages whose fields hold values of the documented types,
    the walk of [trace_wallet] lets only these exceptions escape: the
    one [format_timestamp] raises for a block time it cannot represent
    ([ValueError], [OSError] or [OverflowError]), and [AttributeError],
    for a page whose last entry is not an object.  In particular the
    walk never raises [ZeroDivisionError], [KeyError] or
    [IndexError]. *)
Theorem walk_raises_only api n i address before records e :
  snd (all_participants_loop api n i address before records) = Raise e ->
  is_range_error e = true \/ e = AttributeError.
Proof.
  revert i before records. induction n as [|n IH]; intros i before records.
  - discriminate.
  - cbn [all_participants_loop]. rewrite bind_print. unfold after.
    cbn [snd].
    destruct (api i address before) as [| |[|en l]]; try discriminate.
    destruct (page_formats_cases (en :: l)) as [Hfmt|Hfmt].
    + rewrite (process_page_all_formats _ records Hfmt), bind_ok.
      unfold after. cbn [snd].
      destruct (next_before (en :: l) before) as [before'|ex] eqn:Hnext.
      * rewrite bind_lift_ok. apply IH.
      * cbn. intro H. inversion H; subst. right.
        eapply next_before_raises; [|exact Hnext]. discriminate.
    + destruct (process_page_all_fails _ records Hfmt) as (ex & Hall & Hex).
      destruct (process_page_all (en :: l) records) as [out res].
      cbn [snd] in Hall. subst res. cbn. intro H. inversion H; subst.
      now left.
Qed.

Lemma walk_raises_only_witness :
  snd (all_participants_loop (serve [[TxDict tx_2022; NonDict]]) 3 0 "a"
         sample_now [])
  = Raise AttributeError.
Proof.
  destruct (all_participants_loop (serve [[TxDict tx_2022; NonDict]]) 3 0 "a"
              sample_now []) as [out [records|e]] eqn:Hrun.
  - vm_compute in Hrun. discriminate Hrun.
  - destruct (walk_raises_only (serve [[TxDict tx_2022; NonDict]]) 3 0 "a"
                sample_now [] e) as [He| ->].
    + now rewrite Hrun.
    + vm_compute in Hrun. inversion Hrun; subst. discriminate He.
    + reflexivity.
Defined.

(** ** A cursor that does not move *)




(** ** What is persisted *)

Lemma attribute_utc_stamped tx edges :
  attribute tx = Ok edges -> Forall utc_stamped edges.
Proof.
  intro H. destruct (attribute_labels _ _ H) as (ts & Hts & Hall).
  eapply Forall_impl; [|exact Hall].
  intros e [_ He]. exists (get (block_time tx) 0). now rewrite He.
Qed.

Lemma page_edges_utc_stamped data : Forall utc_stamped (page_edges data).
Proof.
  induction data as [|[|tx] rest IH]; [constructor|exact IH|].
  cbn [page_edges flat_map]. apply Forall_app. split; [|exact IH].
  destruct (attribute tx) as [edges|] eqn:E; [|constructor].
  now apply attribute_utc_stamped with tx.
Qed.

Lemma all_participants_loop_utc_stamped api n i address before records out
    result :
  Forall utc_stamped records ->
  all_participants_loop api n i address before records = (out, Ok result) ->
  Forall utc_stamped result.
Proof.
  revert i before records out.
  induction n as [|n IH]; intros i before records out Hrec.
  - cbn. intro H. now inversion H; subst.
  - cbn [all_participants_loop]. rewrite bind_print. unfold after.
    destruct (api i address before) as [| |[|e l]];
      try (cbn; intro H; now inversion H; subst).
    destruct (page_formats_cases (e :: l)) as [Hfmt|Hfmt].
    + rewrite (process_page_all_formats _ records Hfmt), bind_ok.
      destruct (next_before (e :: l) before) as [before'|ex].
      * rewrite bind_lift_ok. unfold after. cbn [fst snd].
        destruct (all_participants_loop api n (S i) address before' _)
          as [o r] eqn:Hloop.
        cbn [fst snd]. intro H. inversion H; subst.
        eapply IH; [|exact Hloop].
        apply Forall_app. split; [exact Hrec|apply page_edges_utc_stamped].
      * cbn. discriminate.
    + destruct (process_page_all_fails _ records Hfmt) as (ex & Hall & _).
      destruct (process_page_all (e :: l) records) as [o res].
      cbn [snd] in Hall. subst res. cbn. discriminate.
Qed.

Lemma projection_of_frame X records :
  snd (projection X (pd_DataFrame records))
  = Ok (mkFrame (columns (pd_DataFrame records))
          (filter (involves X) records)).
Proof.
  destruct records as [|e l]; [reflexivity|].
  change (pd_DataFrame (e :: l)) with (mkFrame edge_columns (e :: l)).
  now rewrite projection_with_columns.
Qed.

Lemma pd_DataFrame_rows records : rows (pd_DataFrame records) = records.
Proof. now destruct records. Qed.

Lemma trace_wallet_files api now address out records :
  all_participants_loop api default_max_pages 0 address now []
  = (out, Ok records) ->
  snd (trace_wallet api now address)
  = Ok [(path_join DATA_DIR
           (replace ":" "_" address ++ "_all_participants.csv"),
         pd_DataFrame records);
        (path_join DATA_DIR (replace ":" "_" address ++ "_involving.csv"),
         mkFrame (columns (pd_DataFrame records))
           (filter (involves address) records))].
Proof.
  intro Hloop.
  assert (Hfetch : fetch_transactions_all_participants api now address
                     default_max_pages
                   = ((out ++ [])%list, Ok (pd_DataFrame records))).
  { unfold fetch_transactions_all_participants. rewrite Hloop. reflexivity. }
  unfold trace_wallet. rewrite bind_print, Hfetch, bind_ok, bind_print.
  pose proof (projection_of_frame address records) as Hproj.
  destruct (projection address (pd_DataFrame records)) as [o res].
  cbn [snd] in Hproj. subst res.
  rewrite bind_ok, !bind_print. reflexivity.
Qed.

Lemma trace_wallet_fails api now address out e :
  all_participants_loop api default_max_pages 0 address now []
  = (out, Raise e) ->
  snd (trace_wallet api now address) = Raise e.
Proof.
  intro Hloop.
  assert (Hfetch : fetch_transactions_all_participants api now address
                     default_max_pages
                   = (out, Raise e)).
  { unfold fetch_transactions_all_participants. rewrite Hloop. reflexivity. }
  unfold trace_wallet. rewrite bind_print, Hfetch. reflexivity.
Qed.

(** ** The walk of [trace_wallet], page by page *)







(** X12.  [trace_wallet] fails only if the fetch fails, and then
    writes nothing; otherwise it writes exactly two files, the first
    holding every record fetched and the second the records, in the
    same order and under the same columns, whose sender or recipient is
    the address. *)
Theorem trace_wallet_writes_full_and_projection api now address :
  (forall e,
      snd (fetch_transactions_all_participants api now address
             default_max_pages) = Raise e ->
      snd (trace_wallet api now address) = Raise e)
  /\ (forall txs,
         snd (fetch_transactions_all_participants api now address
                default_max_pages) = Ok txs ->
         snd (trace_wallet api now address)
         = Ok [(path_join DATA_DIR
                  (replace ":" "_" address ++ "_all_participants.csv"), txs);
               (path_join DATA_DIR
                  (replace ":" "_" address ++ "_involving.csv"),
                mkFrame (columns txs) (filter (involves address) (rows txs)))]).
Proof.
  unfold fetch_transactions_all_participants.
  destruct (all_participants_loop api default_max_pages 0 address now [])
    as [out [records|ex]] eqn:Hloop.
  - split; intros x Hx; rewrite bind_ok in Hx; unfold after, ret in Hx;
      cbn [snd] in Hx; inversion Hx; subst.
    rewrite pd_DataFrame_rows. exact (trace_wallet_files _ _ _ _ _ Hloop).
  - split; intros x Hx; cbn [bind snd] in Hx; inversion Hx; subst.
    exact (trace_wallet_fails _ _ _ _ _ Hloop).
Qed.

Lemma trace_wallet_writes_full_and_projection_witness :
  rmap (map (fun f => map tx_id (rows (snd f))))
    (snd (trace_wallet (serve [[TxDict tx_2022; TxDict tx_late_2021]])
            sample_now "B"))
  = Ok [["t1"; "t2"]; ["t1"; "t2"]].
Proof.
  destruct (snd (fetch_transactions_all_participants
                   (serve [[TxDict tx_2022; TxDict tx_late_2021]]) sample_now
                   "B" default_max_pages)) as [txs|e] eqn:Hfetch.
  - rewrite (proj2 (trace_wallet_writes_full_and_projection _ _ _) txs Hfetch).
    vm_compute in Hfetch. inversion Hfetch. reflexivity.
  - vm_compute in Hfetch. discriminate Hfetch.
Defined.

(** X13.  Every record [trace_wallet] persists, in either file, is
    stamped with a string that [format_timestamp] printed for some
    block time. *)
Theorem persisted_timestamps_are_formatted api now address out files :
  trace_wallet api now address = (out, Ok files) ->
  forall f e, In f files -> In e (rows (snd f)) -> utc_stamped e.
Proof.
  intros Hrun f e Hf He.
  destruct (all_participants_loop api default_max_pages 0 address now [])
    as [o [records|ex]] eqn:Hloop.
  - pose proof (trace_wallet_files _ _ _ _ _ Hloop) as Hfiles.
    rewrite Hrun in Hfiles. cbn [snd] in Hfiles.
    inversion Hfiles; subst files. clear Hfiles Hrun.
    pose proof (all_participants_loop_utc_stamped _ _ _ _ _ _ _ _
                  (Forall_nil _) Hloop) as Hall.
    clear Hloop. rewrite Forall_forall in Hall.
    destruct Hf as [<-|[<-|[]]]; cbn [snd rows] in He.
    + rewrite pd_DataFrame_rows in He. apply Hall. exact He.
    + apply filter_In in He. apply Hall. exact (proj1 He).
  - pose proof (trace_wallet_fails _ _ _ _ _ Hloop) as Hfail.
    rewrite Hrun in Hfail. cbn [snd] in Hfail. discriminate Hfail.
Qed.

Lemma persisted_timestamps_are_formatted_witness :
  utc_stamped
    (mkEdge "old" "2021-01-01T00:00:00+00:00" "A" "B"
       (inject_Z 100 * weight 100 100 / e8)%Q).
Proof.
  eapply (persisted_timestamps_are_formatted (serve [[TxDict tx_2021]])
            sample_now "A").
  - vm_compute. reflexivity.
  - right. left. reflexivity.
  - left. reflexivity.
Defined.

(** ** File names *)

(** X14.  The stem of the two file names is the address with every
    ':' turned into '_': it has the length of the address and no ':'
    is left in it. *)
Theorem file_stem_has_no_colon (address : string) :
  String.length (replace ":" "_" address) = String.length address
  /\ occurs ":" (replace ":" "_" address) = false.
Proof.
  induction address as [|c s [IHlen IHocc]]; [split; reflexivity|].
  cbn [replace]. destruct (Ascii.eqb c ":") eqn:E.
  - cbn [append String.length occurs]. rewrite IHlen, IHocc.
    split; reflexivity.
  - cbn [String.length occurs]. rewrite IHlen, IHocc, E. split; reflexivity.
Qed.

(** ** The cutoff policy, case by case *)

Lemma make_datetime_valid y mo d h mi s us tz dt :
  make_datetime y mo d h mi s us tz = Ok dt ->
  dt = mkDatetime y mo d h mi s us tz
  /\ 1 <= y <= 9999 /\ 1 <= mo <= 12 /\ 1 <= d <= days_in_month y mo
  /\ 0 <= h <= 23 /\ 0 <= mi <= 59 /\ 0 <= s <= 59 /\ 0 <= us <= 999999.
Proof.
  unfold make_datetime. destruct (_ && _) eqn:E; [|discriminate].
  intro H. inversion H. split; [reflexivity|].
  repeat (apply andb_true_iff in E; destruct E as [E ?]).
  repeat match goal with
         | H : (_ <=? _) = true |- _ => apply Z.leb_le in H
         end.
  apply Z.leb_le in E. lia.
Qed.

Lemma fromisoformat_valid s dt :
  fromisoformat s = Ok dt ->
  1 <= month dt /\ 1 <= day dt /\ 0 <= hour dt /\ 0 <= minute dt
  /\ 0 <= second dt /\ 0 <= microsecond dt.
Proof.
  unfold fromisoformat.
  destruct (String.length s <? 10)%nat; [discriminate|].
  destruct (parse_isoformat_date _) as [[[y mo] d]|]; [|discriminate].
  cbn [rbind]. destruct (String.length s =? 10)%nat.
  - intro H. apply make_datetime_valid in H. destruct H as (-> & H).
    cbn. lia.
  - destruct (parse_isoformat_time _) as [[[[[hh mm] ss] us] tz]|];
      [|discriminate].
    cbn [rbind]. intro H. apply make_datetime_valid in H.
    destruct H as (-> & H). cbn. lia.
Qed.

Lemma before_cutoff_is_year_test dt :
  1 <= month dt -> 1 <= day dt -> 0 <= hour dt -> 0 <= minute dt ->
  0 <= second dt -> 0 <= microsecond dt ->
  lex_lt (fields dt) (fields CUTOFF_DATE) = (year dt <? 2022).
Proof.
  intros Hmo Hd Hh Hmi Hs Hus. unfold fields, CUTOFF_DATE. cbn.
  destruct (year dt <? 2022); [reflexivity|]. cbn.
  destruct (year dt =? 2022); [|reflexivity]. cbn.
  assert (Hlt : forall a b, b <= a -> (a <? b) = false)
    by (intros; apply Z.ltb_ge; lia).
  rewrite !Hlt by assumption. cbn.
  repeat match goal with
         | |- context [?a =? ?b] => destruct (a =? b); cbn
         end; reflexivity.
Qed.

(** X15.  [is_before_cutoff] never raises and answers in one of three
    ways: [True] in silence, [False] in silence, or [False] after
    printing "Timestamp parsing failed" with its argument. *)
Theorem cutoff_policy_never_raises (s : string) :
  is_before_cutoff s = ([], Ok true)
  \/ is_before_cutoff s = ([], Ok false)
  \/ is_before_cutoff s = ([TimestampParsingFailed s], Ok false).
Proof.
  destruct (fromisoformat (replace "Z" "+00:00" s)) as [dt|e] eqn:Eparse.
  - destruct (tzinfo dt) as [off|] eqn:Etz.
    + right. right. apply (is_before_cutoff_aware _ dt Eparse).
      now rewrite Etz.
    + rewrite (is_before_cutoff_naive _ dt Eparse Etz).
      destruct (lex_lt _ _); [now left|right; now left].
  - right. right. exact (is_before_cutoff_unparsable _ e Eparse).
Qed.

(** X16.  On a string of the form [isoformat] prints for a datetime
    without UTC offset (a date [YYYY-MM-DD], alone or followed by a
    separator and a time [HH[:MM[:SS[.fff[fff]]]]]) the policy prints
    nothing and is a test on the year alone: [True] exactly when the
    year is 2021 or earlier. *)
Theorem cutoff_policy_on_naive_timestamps (s : string) (dt : datetime) :
  fromisoformat (replace "Z" "+00:00" s) = Ok dt ->
  tzinfo dt = None ->
  is_before_cutoff s = ([], Ok (year dt <? 2022)).
Proof.
  intros Hparse Htz.
  rewrite (is_before_cutoff_naive _ _ Hparse Htz).
  destruct (fromisoformat_valid _ _ Hparse) as (? & ? & ? & ? & ? & ?).
  now rewrite before_cutoff_is_year_test.
Qed.

Lemma cutoff_policy_on_naive_timestamps_witness :
  is_before_cutoff "2021-12-31T23:59:59.999999" = ([], Ok true)
  /\ is_before_cutoff "2022-01-01" = ([], Ok false).
Proof.
  split.
  - exact (cutoff_policy_on_naive_timestamps "2021-12-31T23:59:59.999999"
             (mkDatetime 2021 12 31 23 59 59 999999 None) eq_refl eq_refl).
  - exact (cutoff_policy_on_naive_timestamps "2022-01-01"
             (mkDatetime 2022 1 1 0 0 0 0 None) eq_refl eq_refl).
Defined.

(** X17.  On every string that [format_timestamp] prints, whatever the
    block time, the policy answers [False] and reports a parsing
    failure: the string carries a UTC offset and [CUTOFF_DATE] does
    not. *)
Theorem cutoff_policy_rejects_formatted_timestamps (ms : Z) (ts : string) :
  format_timestamp ms = Ok ts ->
  is_before_cutoff ts = ([TimestampParsingFailed ts], Ok false)
  /\ occurs "Z" ts = false
  /\ find_tz (slice_from 11 ts) <> None.
Proof.
  intro Hfmt. split; [now apply is_before_cutoff_formatted with ms|].
  destruct (format_timestamp_aware _ _ Hfmt) as (dt & -> & Htz).
  split; [apply isoformat_no_Z|].
  destruct (isoformat_aware_shape dt 0 Htz) as (date & tp & Hlen & ->).
  rewrite <- Hlen, slice_from_app.
  apply find_tz_signed, signed_suffix, format_offset_has_sign.
Qed.

Lemma cutoff_policy_rejects_formatted_timestamps_witness :
  is_before_cutoff epoch = ([TimestampParsingFailed epoch], Ok false).
Proof.
  exact (proj1 (cutoff_policy_rejects_formatted_timestamps 0 epoch eq_refl)).
Defined.

(** ** Printing and parsing timestamps *)

Lemma length_append_string s1 s2 :
  String.length (s1 ++ s2) = (String.length s1 + String.length s2)%nat.
Proof. induction s1 as [|c s1 IH]; simpl; [reflexivity|now rewrite IH]. Qed.

Lemma substring_prefix s1 s2 :
  substring 0 (String.length s1) (s1 ++ s2) = s1.
Proof.
  induction s1 as [|c s1 IH]; simpl; [now destruct s2|now rewrite IH].
Qed.

Lemma substring_skip s1 s2 n :
  substring (String.length s1) n (s1 ++ s2) = substring 0 n s2.
Proof. induction s1 as [|c s1 IH]; simpl; [reflexivity|exact IH]. Qed.

Lemma find_absent c s1 s2 :
  occurs c s1 = false ->
  find c (s1 ++ s2)
  = match find c s2 with
    | Some i => Some (String.length s1 + i)%nat
    | None => None
    end.
Proof.
  induction s1 as [|c' s1 IH]; simpl; [now destruct (find c s2)|].
  intro H. apply orb_false_iff in H. destruct H as [Hc Hs].
  rewrite Hc, (IH Hs). now destruct (find c s2).
Qed.

Lemma digit_val_digit n : digit_val (digit n) = Some (n mod 10).
Proof.
  pose proof (Z.mod_pos_bound n 10 ltac:(lia)) as Hb.
  unfold digit_val, digit.
  rewrite nat_ascii_embedding by lia.
  assert (H1 : (48 <=? 48 + Z.to_nat (n mod 10))%nat = true)
    by (apply Nat.leb_le; lia).
  assert (H2 : (48 + Z.to_nat (n mod 10) <=? 57)%nat = true)
    by (apply Nat.leb_le; lia).
  rewrite H1, H2. cbn [andb]. f_equal. lia.
Qed.

Lemma digit_differs c n : digit_val c = None -> Ascii.eqb (digit n) c = false.
Proof.
  intro Hc. destruct (Ascii.eqb_spec (digit n) c) as [<-|]; [|reflexivity].
  rewrite digit_val_digit in Hc. discriminate.
Qed.

Lemma pad2_lacks c n : digit_val c = None -> occurs c (pad2 n) = false.
Proof.
  intro Hc. unfold pad2. cbn [occurs].
  rewrite !(digit_differs _ _ Hc). reflexivity.
Qed.

Lemma pad6_lacks c n : digit_val c = None -> occurs c (pad6 n) = false.
Proof.
  intro Hc. unfold pad6, pad4, pad2. cbn [occurs].
  rewrite !(digit_differs _ _ Hc). reflexivity.
Qed.

Lemma int_of_digits_pad2 n : 0 <= n < 100 -> int_of_digits (pad2 n) = Ok n.
Proof.
  intro Hn. unfold int_of_digits, pad2.
  repeat (cbn [digits_val]; rewrite digit_val_digit).
  cbn [digits_val]. f_equal. Z.div_mod_to_equations. lia.
Qed.

Lemma int_of_digits_pad4 n : 0 <= n < 10000 -> int_of_digits (pad4 n) = Ok n.
Proof.
  intro Hn. unfold int_of_digits, pad4, pad2.
  repeat (cbn [digits_val]; rewrite digit_val_digit).
  cbn [digits_val]. f_equal. Z.div_mod_to_equations. lia.
Qed.

Lemma int_of_digits_pad6 n :
  0 <= n < 1000000 -> int_of_digits (pad6 n) = Ok n.
Proof.
  intro Hn. unfold int_of_digits, pad6, pad4, pad2.
  repeat (cbn [digits_val]; rewrite digit_val_digit).
  cbn [digits_val]. f_equal. Z.div_mod_to_equations. lia.
Qed.

Lemma substring_nothing s : substring 0 0 s = "".
Proof. now destruct s. Qed.

Lemma two_digits_pad2 n rest :
  0 <= n < 100 -> two_digits (pad2 n ++ rest) = Ok (n, rest).
Proof.
  intro Hn. unfold two_digits.
  change (pad2 n ++ rest) with (String (digit (n / 10)) (String (digit n) rest)).
  cbn [String.length Nat.ltb Nat.leb slice Nat.sub substring slice_from].
  rewrite substring_nothing.
  change (String (digit (n / 10)) (String (digit n) "")) with (pad2 n).
  rewrite (int_of_digits_pad2 _ Hn). reflexivity.
Qed.

Lemma parse_fraction_part dt :
  0 <= microsecond dt <= 999999 ->
  parse_fraction (fraction_part dt) = Ok (microsecond dt).
Proof.
  intro Hus. unfold fraction_part.
  destruct (microsecond dt =? 0) eqn:E.
  - apply Z.eqb_eq in E. now rewrite E.
  - change ("." ++ pad6 (microsecond dt))
      with (String "." (pad6 (microsecond dt))).
    cbn [parse_fraction]. rewrite Ascii.eqb_refl.
    change (String.length (pad6 (microsecond dt))) with 6%nat.
    cbn [Nat.eqb]. apply int_of_digits_pad6. lia.
Qed.

Lemma parse_time_part dt :
  0 <= hour dt < 100 -> 0 <= minute dt < 100 -> 0 <= second dt < 100 ->
  0 <= microsecond dt <= 999999 ->
  parse_hh_mm_ss_ff (time_part dt)
  = Ok (hour dt, minute dt, second dt, microsecond dt).
Proof.
  intros Hh Hmi Hs Hus. unfold parse_hh_mm_ss_ff, time_part.
  rewrite (two_digits_pad2 _ _ Hh). cbn [rbind].
  change (":" ++ pad2 (minute dt) ++ ":" ++ pad2 (second dt)
          ++ fraction_part dt)
    with (String ":" (pad2 (minute dt) ++ String ":" (pad2 (second dt)
          ++ fraction_part dt))).
  cbv beta iota. rewrite Ascii.eqb_refl. cbn [negb].
  rewrite (two_digits_pad2 _ _ Hmi). cbn [rbind]. cbv beta iota.
  rewrite Ascii.eqb_refl. cbn [negb].
  rewrite (two_digits_pad2 _ _ Hs). cbn [rbind]. cbv beta iota.
  rewrite (parse_fraction_part _ Hus). reflexivity.
Qed.

Lemma time_part_unsigned dt :
  occurs "-" (time_part dt) = false /\ occurs "+" (time_part dt) = false.
Proof.
  unfold time_part, fraction_part.
  split; rewrite !occurs_app, !pad2_lacks by reflexivity;
    destruct (microsecond dt =? 0);
    rewrite ?occurs_app, ?pad6_lacks by reflexivity; reflexivity.
Qed.

Lemma slice_from_past s1 c s2 :
  slice_from (S (String.length s1)) (s1 ++ String c s2) = s2.
Proof. induction s1 as [|c' s1 IH]; simpl; [reflexivity|exact IH]. Qed.

Lemma parse_time_utc T :
  occurs "-" T = false -> occurs "+" T = false ->
  parse_isoformat_time (T ++ "+00:00")
  = rbind (parse_hh_mm_ss_ff T)
      (fun p => let '(hh, mm, ss, us) := p in Ok (hh, mm, ss, us, Some 0)).
Proof.
  intros Hminus Hplus. unfold parse_isoformat_time.
  assert (Hlen : (String.length (T ++ "+00:00") <? 2)%nat = false).
  { rewrite length_append_string. apply Nat.ltb_ge. cbn. lia. }
  rewrite Hlen. unfold find_tz.
  rewrite (find_absent _ _ _ Hminus), (find_absent _ _ _ Hplus).
  change (find "-" "+00:00") with (@None nat).
  change (find "+" "+00:00") with (Some 0%nat).
  cbv beta iota. rewrite Nat.add_0_r.
  replace (S (String.length T) - 1)%nat with (String.length T) by lia.
  unfold slice at 1. rewrite Nat.sub_0_r, substring_prefix.
  destruct (parse_hh_mm_ss_ff T) as [[[[hh mm] ss] us]|]; [|reflexivity].
  cbn [rbind]. rewrite slice_from_past.
  unfold slice.
  replace (S (String.length T) - String.length T)%nat with 1%nat by lia.
  rewrite substring_skip. reflexivity.
Qed.

Lemma isoformat_utc dt :
  tzinfo dt = Some 0 ->
  isoformat dt = (date_part dt ++ "T") ++ time_part dt ++ "+00:00".
Proof.
  intro Htz. unfold isoformat, date_part, time_part, fraction_part.
  rewrite Htz. reflexivity.
Qed.

Lemma parse_date_part dt :
  parse_isoformat_date (slice 0 10 ((date_part dt ++ "T") ++ time_part dt
                                    ++ "+00:00"))
  = rbind (int_of_digits (pad4 (year dt))) (fun y =>
    rbind (int_of_digits (pad2 (month dt))) (fun mo =>
    rbind (int_of_digits (pad2 (day dt))) (fun d => Ok (y, mo, d)))).
Proof. reflexivity. Qed.

Lemma make_datetime_again y mo d h mi s us tz dt :
  make_datetime y mo d h mi s us tz = Ok dt ->
  make_datetime (year dt) (month dt) (day dt) (hour dt) (minute dt)
    (second dt) (microsecond dt) (tzinfo dt) = Ok dt.
Proof.
  intro H. destruct (make_datetime_valid _ _ _ _ _ _ _ _ _ H) as (-> & _).
  exact H.
Qed.

Lemma days_in_month_le y mo : days_in_month y mo <= 31.
Proof.
  unfold days_in_month.
  destruct (mo =? 2); [destruct (is_leap y); lia|].
  destruct (_ || _); lia.
Qed.

Lemma fromisoformat_isoformat y mo d h mi s us dt :
  make_datetime y mo d h mi s us (Some 0) = Ok dt ->
  fromisoformat (isoformat dt) = Ok dt.
Proof.
  intro Hmk. pose proof (make_datetime_again _ _ _ _ _ _ _ _ _ Hmk) as Hagain.
  destruct (make_datetime_valid _ _ _ _ _ _ _ _ _ Hmk)
    as (Hdt & Hy & Hmo & Hd & Hh & Hmi & Hs & Hus).
  assert (Htz : tzinfo dt = Some 0) by now rewrite Hdt.
  assert (Hfields : year dt = y /\ month dt = mo /\ day dt = d
                    /\ hour dt = h /\ minute dt = mi /\ second dt = s
                    /\ microsecond dt = us) by now rewrite Hdt.
  destruct Hfields as (Ey & Emo & Ed & Eh & Emi & Es & Eus).
  pose proof (days_in_month_le y mo) as Hdim.
  rewrite (isoformat_utc _ Htz). unfold fromisoformat.
  rewrite parse_date_part.
  rewrite int_of_digits_pad4, int_of_digits_pad2, int_of_digits_pad2 by lia.
  cbn [rbind].
  change 11%nat with (String.length (date_part dt ++ "T")).
  rewrite slice_from_app.
  destruct (time_part_unsigned dt) as [Hminus Hplus].
  assert (Hparse : parse_isoformat_time (time_part dt ++ "+00:00")
                   = Ok (hour dt, minute dt, second dt, microsecond dt,
                         Some 0)).
  { rewrite (parse_time_utc _ Hminus Hplus), parse_time_part by lia.
    reflexivity. }
  destruct (time_part dt ++ "+00:00") as [|c rest] eqn:Etime.
  - apply (f_equal String.length) in Etime.
    rewrite length_append_string in Etime. cbn in Etime. lia.
  - rewrite Hparse. cbn [rbind]. rewrite <- Htz. exact Hagain.
Qed.

Lemma fromtimestamp_made ms dt :
  fromtimestamp_ms_utc ms = Ok dt ->
  exists y mo d h mi s,
    make_datetime y mo d h mi s (ms mod 1000 * 1000) (Some 0) = Ok dt.
Proof.
  unfold fromtimestamp_ms_utc.
  destruct (_ || _); [discriminate|].
  destruct (_ || _); [discriminate|].
  destruct (ord2ymd _) as [[y mo] d].
  intro H. repeat eexists. exact H.
Qed.

(** X18.  Parsing gives back what was printed: for every block time
    that [format_timestamp] accepts, [fromisoformat] applied to the
    printed string as [is_before_cutoff] does, after the "Z"
    replacement, returns the very datetime that was printed, UTC offset
    included.  The "parsing failed" notice of the cutoff policy is
    therefore never about parsing. *)
Theorem parsing_recovers_formatted_timestamp (ms : Z) (ts : string) :
  format_timestamp ms = Ok ts ->
  exists dt,
    fromtimestamp_ms_utc ms = Ok dt
    /\ fromisoformat (replace "Z" "+00:00" ts) = Ok dt
    /\ tzinfo dt = Some 0.
Proof.
  unfold format_timestamp.
  destruct (fromtimestamp_ms_utc ms) as [dt|] eqn:Hdt; [|discriminate].
  cbn [rbind]. intro H. inversion H; subst ts. exists dt.
  destruct (fromtimestamp_made _ _ Hdt) as (y & mo & d & h & mi & s & Hmk).
  split; [reflexivity|]. split.
  - rewrite (replace_absent _ _ _ (isoformat_no_Z dt)).
    exact (fromisoformat_isoformat _ _ _ _ _ _ _ _ Hmk).
  - exact (make_datetime_tzinfo _ _ _ _ _ _ _ _ _ Hmk).
Qed.

Lemma parsing_recovers_formatted_timestamp_witness :
  fromisoformat (replace "Z" "+00:00" "2024-02-29T13:12:25.678000+00:00")
  = Ok (mkDatetime 2024 2 29 13 12 25 678000 (Some 0)).
Proof.
  destruct (parsing_recovers_formatted_timestamp 1709212345678
              "2024-02-29T13:12:25.678000+00:00" eq_refl)
    as (dt & Hdt & Hparse & _).
  rewrite Hparse, <- Hdt. reflexivity.
Defined.

(** X19.  A printed timestamp ends with the offset "+00:00" and is 25
    characters long when the block time is a whole number of seconds,
    32 otherwise (a six-digit fraction is printed). *)
Theorem format_timestamp_length (ms : Z) (ts : string) :
  format_timestamp ms = Ok ts ->
  (exists body, ts = body ++ "+00:00")
  /\ String.length ts = if ms mod 1000 =? 0 then 25%nat else 32%nat.
Proof.
  unfold format_timestamp.
  destruct (fromtimestamp_ms_utc ms) as [dt|] eqn:Hdt; [|discriminate].
  cbn [rbind]. intro H. inversion H; subst ts.
  destruct (fromtimestamp_made _ _ Hdt) as (y & mo & d & h & mi & s & Hmk).
  destruct (make_datetime_valid _ _ _ _ _ _ _ _ _ Hmk) as (Edt & _).
  assert (Htz : tzinfo dt = Some 0) by now rewrite Edt.
  assert (Hus : microsecond dt = ms mod 1000 * 1000) by now rewrite Edt.
  rewrite (isoformat_utc _ Htz). split.
  - exists ((date_part dt ++ "T") ++ time_part dt).
    induction (date_part dt ++ "T") as [|c p IH]; cbn [append];
      [reflexivity|now rewrite IH].
  - rewrite !length_append_string.
    change (String.length (date_part dt ++ "T")) with 11%nat.
    unfold time_part. rewrite !length_append_string.
    change (String.length (pad2 (hour dt))) with 2%nat.
    change (String.length (pad2 (minute dt))) with 2%nat.
    change (String.length (pad2 (second dt))) with 2%nat.
    unfold fraction_part. rewrite Hus.
    assert (Hz : (ms mod 1000 * 1000 =? 0) = (ms mod 1000 =? 0)).
    { destruct (ms mod 1000 =? 0) eqn:E.
      - apply Z.eqb_eq in E. now rewrite E.
      - apply Z.eqb_neq in E. apply Z.eqb_neq. lia. }
    rewrite Hz. destruct (ms mod 1000 =? 0); reflexivity.
Qed.

Lemma format_timestamp_length_witness :
  String.length "2024-02-29T13:12:25.678000+00:00" = 32%nat
  /\ String.length "2021-01-01T00:00:00+00:00" = 25%nat.
Proof.
  split.
  - exact (proj2 (format_timestamp_length 1709212345678
                    "2024-02-29T13:12:25.678000+00:00" eq_refl)).
  - exact (proj2 (format_timestamp_length 1609459200000
                    "2021-01-01T00:00:00+00:00" eq_refl)).
Defined.

(** ** The block times that can be printed *)

Lemma cycle_checked : all_ok cycle_ok (Z.to_nat cycle_days) 0 = true.
Proof. vm_compute. reflexivity. Qed.

Lemma all_ok_spec check fuel r :
  all_ok check fuel r = true ->
  forall x, r <= x < r + Z.of_nat fuel -> check x = true.
Proof.
  revert r. induction fuel as [|fuel IH]; intros r H x Hx; [lia|].
  cbn [all_ok] in H. apply andb_true_iff in H. destruct H as [Hr Hrest].
  destruct (Z.eq_dec x r) as [->|Hne]; [exact Hr|].
  apply (IH (r + 1) Hrest). lia.
Qed.

Lemma cycle_ok_every r : 0 <= r < cycle_days -> cycle_ok r = true.
Proof.
  intro Hr. apply (all_ok_spec _ _ _ cycle_checked).
  unfold cycle_days in *. lia.
Qed.

Lemma ord2ymd_shift k r :
  0 <= r < cycle_days ->
  ord2ymd (k * cycle_days + r + 1)
  = let '(y, mo, d) := ord2ymd (r + 1) in (k * 400 + y, mo, d).
Proof.
  unfold cycle_days. intro Hr. unfold ord2ymd.
  replace (k * 146097 + r + 1 - 1) with (r + k * 146097) by lia.
  replace (r + 1 - 1) with r by lia.
  rewrite Z.div_add, Z.mod_add by lia.
  rewrite (Z.div_small r 146097), (Z.mod_small r 146097) by lia.
  cbv zeta.
  destruct ((r mod 36524 mod 1461 / 365 =? 4) || (r / 36524 =? 4));
    [f_equal; f_equal; lia|].
  destruct (_ <? _); f_equal; f_equal; lia.
Qed.

Lemma is_leap_shift k y : is_leap (k * 400 + y) = is_leap y.
Proof.
  unfold is_leap.
  replace ((k * 400 + y) mod 4) with (y mod 4)
    by (replace (k * 400 + y) with (y + k * 100 * 4) by lia;
        now rewrite Z.mod_add by lia).
  replace ((k * 400 + y) mod 100) with (y mod 100)
    by (replace (k * 400 + y) with (y + k * 4 * 100) by lia;
        now rewrite Z.mod_add by lia).
  replace ((k * 400 + y) mod 400) with (y mod 400)
    by (replace (k * 400 + y) with (y + k * 400) by lia;
        now rewrite Z.mod_add by lia).
  reflexivity.
Qed.

Lemma days_in_month_shift k y mo :
  days_in_month (k * 400 + y) mo = days_in_month y mo.
Proof. unfold days_in_month. now rewrite is_leap_shift. Qed.

(** The dates of the years 1..9999 are the ordinals 1..3652059. *)
Lemma ord2ymd_valid ordinal y mo d :
  ord2ymd ordinal = (y, mo, d) ->
  (1 <= ordinal <= 3652059
   <-> 1 <= y <= 9999 /\ 1 <= mo <= 12 /\ 1 <= d <= days_in_month y mo).
Proof.
  intro H.
  pose proof (Z.div_mod (ordinal - 1) cycle_days ltac:(discriminate)) as Hdm.
  pose proof (Z.mod_pos_bound (ordinal - 1) cycle_days ltac:(reflexivity))
    as Hr.
  set (k := (ordinal - 1) / cycle_days) in *.
  set (r := (ordinal - 1) mod cycle_days) in *.
  replace ordinal with (k * cycle_days + r + 1) in H by lia.
  rewrite (ord2ymd_shift _ _ Hr) in H.
  pose proof (cycle_ok_every _ Hr) as Hok. unfold cycle_ok in Hok.
  destruct (ord2ymd (r + 1)) as [[y0 mo0] d0].
  inversion H; subst y mo d. clear H.
  rewrite days_in_month_shift.
  repeat (apply andb_true_iff in Hok; destruct Hok as [Hok ?]).
  repeat match goal with
         | H : (_ <=? _) = true |- _ => apply Z.leb_le in H
         end.
  apply Z.leb_le in Hok.
  assert (Hlast : y0 <= 399 <-> r < 145731).
  { destruct (y0 <=? 399) eqn:E1, (r <? 145731) eqn:E2;
      try discriminate;
      rewrite ?Z.leb_le, ?Z.leb_gt, ?Z.ltb_lt, ?Z.ltb_ge in *; lia. }
  unfold cycle_days in *. lia.
Qed.

Lemma make_datetime_total y mo d h mi s us tz :
  1 <= y <= 9999 -> 1 <= mo <= 12 -> 1 <= d <= days_in_month y mo ->
  0 <= h <= 23 -> 0 <= mi <= 59 -> 0 <= s <= 59 -> 0 <= us <= 999999 ->
  make_datetime y mo d h mi s us tz = Ok (mkDatetime y mo d h mi s us tz).
Proof.
  intros. unfold make_datetime.
  repeat match goal with
         | |- context [?a <=? ?b] =>
             replace (a <=? b) with true by (symmetry; apply Z.leb_le; lia)
         end.
  reflexivity.
Qed.

Lemma fromtimestamp_in_range ms :
  min_block_time <= ms <= max_block_time ->
  exists dt, fromtimestamp_ms_utc ms = Ok dt.
Proof.
  unfold min_block_time, max_block_time. intro Hms.
  unfold fromtimestamp_ms_utc.
  replace ((ms <? - time_t_max_block_time) || (time_t_max_block_time <? ms))
    with false
    by (symmetry; apply orb_false_iff; unfold time_t_max_block_time;
        split; apply Z.ltb_ge; lia).
  replace ((ms <? gmtime_min_block_time) || (gmtime_max_block_time <? ms))
    with false
    by (symmetry; apply orb_false_iff;
        unfold gmtime_min_block_time, gmtime_max_block_time;
        split; apply Z.ltb_ge; lia).
  destruct (ord2ymd (ms / 1000 / 86400 + 719163)) as [[y mo] d] eqn:E.
  assert (Hord : 1 <= ms / 1000 / 86400 + 719163 <= 3652059)
    by (Z.div_mod_to_equations; lia).
  apply (ord2ymd_valid _ _ _ _ E) in Hord. destruct Hord as (Hy & Hmo & Hd).
  eexists. apply make_datetime_total; try assumption;
    Z.div_mod_to_equations; lia.
Qed.

Lemma fromtimestamp_out_of_range ms :
  ~ (min_block_time <= ms <= max_block_time) ->
  fromtimestamp_ms_utc ms = Raise (range_error ms).
Proof.
  unfold min_block_time, max_block_time. intro Hms.
  unfold fromtimestamp_ms_utc, range_error.
  destruct (_ || _); [reflexivity|].
  destruct (_ || _); [reflexivity|].
  destruct (ord2ymd (ms / 1000 / 86400 + 719163)) as [[y mo] d] eqn:E.
  destruct (make_datetime _ _ _ _ _ _ _ _) as [dt|e] eqn:Hmk.
  - exfalso. apply Hms.
    destruct (make_datetime_valid _ _ _ _ _ _ _ _ _ Hmk)
      as (_ & Hy & Hmo & Hd & _).
    assert (Hord : 1 <= ms / 1000 / 86400 + 719163 <= 3652059)
      by (apply (ord2ymd_valid _ _ _ _ E); auto).
    Z.div_mod_to_equations. lia.
  - unfold make_datetime in Hmk. destruct (_ && _); [discriminate|].
    symmetry. exact Hmk.
Qed.

(** X20.  [format_timestamp] prints exactly the block times from
    -62135596800000 (0001-01-01T00:00:00) to 253402300799999
    (9999-12-31T23:59:59.999).  On any other it raises: [ValueError]
    as long as the C library can break the moment down (years beyond
    9999 or before 1), [OSError] past that, and [OverflowError] once
    [ms / 1000] no longer fits [time_t]. *)
Theorem format_timestamp_domain (ms : Z) :
  (min_block_time <= ms <= max_block_time ->
   exists ts, format_timestamp ms = Ok ts)
  /\ (~ (min_block_time <= ms <= max_block_time) ->
      format_timestamp ms = Raise (range_error ms)
      /\ (gmtime_min_block_time <= ms <= gmtime_max_block_time ->
          range_error ms = ValueError)
      /\ (- time_t_max_block_time <= ms <= time_t_max_block_time ->
          ~ (gmtime_min_block_time <= ms <= gmtime_max_block_time) ->
          range_error ms = OSError)
      /\ (~ (- time_t_max_block_time <= ms <= time_t_max_block_time) ->
          range_error ms = OverflowError)).
Proof.
  unfold format_timestamp. split; intro Hms.
  - destruct (fromtimestamp_in_range _ Hms) as (dt & ->).
    now exists (isoformat dt).
  - split; [now rewrite (fromtimestamp_out_of_range _ Hms)|].
    unfold range_error, gmtime_min_block_time, gmtime_max_block_time,
      time_t_max_block_time.
    repeat split; intros;
      repeat match goal with
             | |- context [?a <? ?b] =>
                 let E := fresh in destruct (Z.ltb_spec a b) as [E|E]
             end; cbn [orb]; try reflexivity; lia.
Qed.

Lemma format_timestamp_domain_witness :
  (exists ts, format_timestamp max_block_time = Ok ts)
  /\ format_timestamp (max_block_time + 1) = Raise ValueError
  /\ (exists ts, format_timestamp min_block_time = Ok ts)
  /\ format_timestamp (min_block_time - 1) = Raise ValueError
  /\ format_timestamp (10 ^ 20) = Raise OSError
  /\ format_timestamp (10 ^ 22) = Raise OverflowError.
Proof.
  split; [|split; [|split; [|split; [|split]]]].
  - apply (proj1 (format_timestamp_domain max_block_time)).
    split; discriminate.
  - apply (proj2 (format_timestamp_domain (max_block_time + 1))).
    intros [_ H]. now apply H.
  - apply (proj1 (format_timestamp_domain min_block_time)).
    split; discriminate.
  - apply (proj2 (format_timestamp_domain (min_block_time - 1))).
    intros [H _]. now apply H.
  - apply (proj2 (format_timestamp_domain (10 ^ 20))).
    intros [_ H]. now apply H.
  - apply (proj2 (format_timestamp_domain (10 ^ 22))).
    intros [_ H]. now apply H.
Defined.

(** ** Pages and block times *)





